(** * ChessnutPy: the board decoder, change detector, notation composer,
      position comparator and LED encoder of [ChessnutAir.py]

    The development embeds the functions of [ChessnutAir.py] in Gallina and
    proves (or refutes) the properties the specification states about them.

    Conventions.
    - A Python [str] is a [list ascii]; the program only ever builds strings
      of ASCII code points, and the case and digit predicates are modelled on
      those.
    - A Python [int] is a [Z]; [//] is [Z.div] and [%] is [Z.modulo] (both
      floor, as in Python), [&], [|], [>>], [<<] are [Z.land], [Z.lor],
      [Z.shiftr], [Z.shiftl].
    - A Python float is a double: a finite one (a duration, a clock
      reading) is the rational [Q] it denotes, and comparisons of doubles
      are those of the rationals; a sum of doubles is rounded to a double
      ([float_add]); [math.inf] is [None].
    - An exception is a value of [exn]; a function that may raise returns a
      sum [exn + A]. *)

From Stdlib Require Import ZArith List Ascii String DecimalString Lia.
From Stdlib Require Import QArith Qround Qabs Lqa.
From stdpp Require Import base option list gmap strings.

Local Open Scope Z_scope.

(** ** Python values *)

Inductive exn : Type :=
| KeyError | ValueError | IndexError | AttributeError
| OverflowError | NotImplementedError.

#[global] Instance exn_eq_dec : EqDecision exn.
Proof. solve_decision. Defined.

Module Py.

Definition str : Type := list ascii.

(** A string literal. *)
Definition lit (s : string) : str := list_ascii_of_string s.

Definition code (c : ascii) : Z := Z.of_N (N_of_ascii c).
Definition chr (z : Z) : ascii := ascii_of_N (Z.to_N z).

Definition is_upper_char (c : ascii) : bool :=
  (65 <=? code c) && (code c <=? 90).
Definition is_lower_char (c : ascii) : bool :=
  (97 <=? code c) && (code c <=? 122).

(** [s.lower()] *)
Definition lower_char (c : ascii) : ascii :=
  if is_upper_char c then chr (code c + 32) else c.
Definition lower (s : str) : str := map lower_char s.

(** [s.upper()] *)
Definition upper_char (c : ascii) : ascii :=
  if is_lower_char c then chr (code c - 32) else c.
Definition upper (s : str) : str := map upper_char s.

(** [s.isupper()]: no lowercase letter and at least one uppercase one. *)
Definition isupper (s : str) : bool :=
  forallb (fun c => negb (is_lower_char c)) s && existsb is_upper_char s.

(** [c.isdigit()] for a one-character string. *)
Definition isdigit (c : ascii) : bool :=
  (48 <=? code c) && (code c <=? 57).

(** [int(c)] for a digit character. *)
Definition digit_value (c : ascii) : Z := code c - 48.

(** The characters [str.split()] treats as separators. *)
Definition isspace (c : ascii) : bool :=
  ((9 <=? code c) && (code c <=? 13))
  || ((28 <=? code c) && (code c <=? 32)).

(** [str(n)] for an integer. *)
Definition str_of_int (n : Z) : str :=
  list_ascii_of_string (NilZero.string_of_int (Z.to_int n)).

(** [s.split(sep)] for a one-character separator: one more field than
    there are separators, empty fields kept. *)
Fixpoint split_on (sep : ascii) (s : str) : list str :=
  match s with
  | [] => [[]]
  | c :: s' =>
      if bool_decide (c = sep) then [] :: split_on sep s'
      else match split_on sep s' with
           | [] => [[c]]
           | w :: ws => (c :: w) :: ws
           end
  end.

(** [s.split()]: fields separated by runs of whitespace, no empty field. *)
Fixpoint split_ws_aux (cur : str) (s : str) : list str :=
  match s with
  | [] => match cur with [] => [] | _ => [rev cur] end
  | c :: s' =>
      if isspace c
      then match cur with
           | [] => split_ws_aux [] s'
           | _ => rev cur :: split_ws_aux [] s'
           end
      else split_ws_aux (c :: cur) s'
  end.
Definition split_ws (s : str) : list str := split_ws_aux [] s.

(** [sep.join(rows)] *)
Fixpoint join (sep : str) (rows : list str) : str :=
  match rows with
  | [] => []
  | [r] => r
  | r :: rest => r ++ sep ++ join sep rest
  end.

(** [s[:-1]] *)
Definition drop_last {A} (s : list A) : list A := removelast s.

(** [c * n] for a one-character string [c]. *)
Definition repeat_char (c : ascii) (n : Z) : str := repeat c (Z.to_nat n).

(** [l[i]] for a non-negative index. *)
Definition index {A} (l : list A) (i : nat) : exn + A :=
  match l !! i with
  | Some x => inr x
  | None => inl IndexError
  end.

(** [d[k]] for a dictionary. *)
Definition getitem `{Countable K} {V} (d : gmap K V) (k : K) : exn + V :=
  match d !! k with
  | Some v => inr v
  | None => inl KeyError
  end.

End Py.

(** The bitwise or of two [n]-bit numbers is an [n]-bit number. *)
Lemma lor_below_pow2 (a b n : Z) :
  0 <= n -> 0 <= a < 2 ^ n -> 0 <= b < 2 ^ n -> 0 <= Z.lor a b < 2 ^ n.
Proof.
  intros Hn Ha Hb.
  assert (H0 : 0 <= Z.lor a b) by (apply Z.lor_nonneg; lia).
  split; [exact H0 |].
  destruct (Z.eq_dec (Z.lor a b) 0) as [-> | Hne]; [lia |].
  assert (0 < n).
  { destruct (Z.eq_dec n 0) as [-> | ?]; [| lia].
    assert (a = 0) by lia. assert (b = 0) by lia. subst. now simpl in Hne. }
  apply Z.log2_lt_pow2; [lia |].
  rewrite Z.log2_lor by lia.
  assert (Z.log2 a < n).
  { destruct (Z.eq_dec a 0) as [-> | ?]; [simpl; lia |].
    apply Z.log2_lt_pow2; lia. }
  assert (Z.log2 b < n).
  { destruct (Z.eq_dec b 0) as [-> | ?]; [simpl; lia |].
    apply Z.log2_lt_pow2; lia. }
  lia.
Qed.

(** ** The part of the [chess] library the program uses *)

Module chess.

Inductive PieceType : Type :=
| PAWN | KNIGHT | BISHOP | ROOK | QUEEN | KING.

#[global] Instance PieceType_eq_dec : EqDecision PieceType.
Proof. solve_decision. Defined.

(** [chess.Piece]: a dataclass of a piece type and a colour ([True] is
    white); equality is field-wise. *)
Record Piece : Type := mkPiece { piece_type : PieceType; color : bool }.

#[global] Instance Piece_eq_dec : EqDecision Piece.
Proof. solve_decision. Defined.

(** [PIECE_SYMBOLS = [None, "p", "n", "b", "r", "q", "k"]] *)
Definition PIECE_SYMBOLS : list (PieceType * ascii) :=
  [(PAWN, "p"); (KNIGHT, "n"); (BISHOP, "b");
   (ROOK, "r"); (QUEEN, "q"); (KING, "k")]%char.

Definition piece_symbol (t : PieceType) : ascii :=
  match t with
  | PAWN => "p" | KNIGHT => "n" | BISHOP => "b"
  | ROOK => "r" | QUEEN => "q" | KING => "k"
  end%char.

(** [PIECE_SYMBOLS.index(s)]: [ValueError] when [s] is not in the list. *)
Definition symbol_index (s : Py.str) : exn + PieceType :=
  match s with
  | [c] =>
      match find (fun e => bool_decide (snd e = c)) PIECE_SYMBOLS with
      | Some e => inr (fst e)
      | None => inl ValueError
      end
  | _ => inl ValueError
  end.

(** [Piece.from_symbol(symbol)] =
    [Piece(PIECE_SYMBOLS.index(symbol.lower()), symbol.isupper())] *)
Definition from_symbol (symbol : Py.str) : exn + Piece :=
  match symbol_index (Py.lower symbol) with
  | inl e => inl e
  | inr t => inr (mkPiece t (Py.isupper symbol))
  end.

(** [piece.symbol()] *)
Definition symbol (p : Piece) : ascii :=
  if color p then Py.upper_char (piece_symbol (piece_type p))
  else piece_symbol (piece_type p).

Definition BB_ALL : Z := 0xffffffffffffffff.
Definition BB_FILE_A : Z := 0x0101010101010101.

(** [chess.SquareSet]: a 64-bit mask; the constructor keeps
    [mask & BB_ALL], so the mask is always in range. *)
Record SquareSet : Type := mkSquareSet {
  mask : Z;
  mask_range : ((0 <=? mask) && (mask <=? BB_ALL))%Z = true
}.

Lemma land_BB_ALL_range (z : Z) :
  ((0 <=? Z.land z BB_ALL) && (Z.land z BB_ALL <=? BB_ALL))%Z = true.
Proof.
  apply andb_true_intro; split.
  - apply Z.leb_le, Z.land_nonneg. right. unfold BB_ALL. lia.
  - apply Z.leb_le.
    change BB_ALL with (Z.ones 64).
    rewrite Z.land_ones by lia.
    pose proof (Z.mod_pos_bound z (2 ^ 64) ltac:(lia)).
    rewrite Z.ones_equiv. lia.
Qed.

(** [SquareSet(int)] *)
Definition SquareSet_of_int (z : Z) : SquareSet :=
  mkSquareSet (Z.land z BB_ALL) (land_BB_ALL_range z).

(** [int(squares)] *)
Definition int (s : SquareSet) : Z := mask s.

Lemma lor_range (a b : Z) :
  ((0 <=? a) && (a <=? BB_ALL))%Z = true ->
  ((0 <=? b) && (b <=? BB_ALL))%Z = true ->
  ((0 <=? Z.lor a b) && (Z.lor a b <=? BB_ALL))%Z = true.
Proof.
  intros Ha Hb.
  apply andb_prop in Ha as [Ha1 Ha2]. apply andb_prop in Hb as [Hb1 Hb2].
  apply Z.leb_le in Ha1, Ha2, Hb1, Hb2. unfold BB_ALL in *.
  pose proof (lor_below_pow2 a b 64 ltac:(lia) ltac:(lia) ltac:(lia)).
  apply andb_true_intro; split; apply Z.leb_le; lia.
Qed.

(** [a.union(b)] is [a | b]: a copy of [b] ([SquareSet(b)]) whose mask is
    then or-ed with [a.mask]. *)
Definition union (a b : SquareSet) : SquareSet :=
  mkSquareSet (Z.lor (mask (SquareSet_of_int (int b))) (mask a))
              (lor_range _ _ (mask_range (SquareSet_of_int (int b)))
                         (mask_range a)).

(** [square in squares], for a square 0..63. *)
Definition contains (s : SquareSet) (square : Z) : bool :=
  negb (Z.land (Z.shiftl 1 square) (mask s) =? 0).

(** [SquareSet(squares)] for an iterable of squares. *)
Definition SquareSet_of_squares (l : list Z) : SquareSet :=
  SquareSet_of_int (fold_left (fun m sq => Z.lor m (Z.shiftl 1 sq)) l 0).

(** [chess.flip_horizontal(bb)] *)
Definition flip_horizontal (bb : Z) : Z :=
  let bb := Z.lor (Z.land (Z.shiftr bb 1) 0x5555555555555555)
                  (Z.shiftl (Z.land bb 0x5555555555555555) 1) in
  let bb := Z.lor (Z.land (Z.shiftr bb 2) 0x3333333333333333)
                  (Z.shiftl (Z.land bb 0x3333333333333333) 2) in
  let bb := Z.lor (Z.land (Z.shiftr bb 4) 0x0f0f0f0f0f0f0f0f)
                  (Z.shiftl (Z.land bb 0x0f0f0f0f0f0f0f0f) 4) in
  bb.

(** [chess.square(file, rank)] and its inverses. *)
Definition square (file rank : Z) : Z := rank * 8 + file.
Definition square_file (sq : Z) : Z := Z.land sq 7.
Definition square_rank (sq : Z) : Z := Z.shiftr sq 3.

End chess.

(** [n.to_bytes(length, byteorder='big')] *)
Definition big_endian (length : nat) (n : Z) : list Z :=
  map (fun k => Z.land (Z.shiftr n (8 * Z.of_nat (length - 1 - k))) 255)
      (seq 0 length).
Definition to_bytes_big (length : nat) (n : Z) : exn + list Z :=
  if (n <? 0) || (256 ^ Z.of_nat length <=? n) then inl OverflowError
  else inr (big_endian length n).

(** ** Square names *)

(** [loc_to_pos(location, rev=False)]; [location % 8] is in 0..7 for every
    integer, so the index into the file letters never fails. *)
Definition loc_to_pos (location : Z) (rev : bool) : Py.str :=
  match Py.index (Py.lit "hgfedcba") (Z.to_nat (location mod 8)) with
  | inr c =>
      [c] ++ Py.str_of_int (if negb rev then 8 - location / 8
                            else location / 8)
  | inl _ => []
  end.

(** ** The session object *)

(** A board buffer is either the list [[0] * 32] the constructor installs or
    a [bytearray] cut from a notification; Python never finds a list equal
    to a bytearray. *)
Inductive buffer : Type :=
| PyList (l : list Z)
| ByteArray (l : list Z).

#[global] Instance buffer_eq_dec : EqDecision buffer.
Proof. solve_decision. Defined.

Definition elems (b : buffer) : list Z :=
  match b with PyList l => l | ByteArray l => l end.

(** The connected transport ([BleakClient]); the session only calls it. *)
Inductive BleakClient : Type := Client (address : string).

Record ChessnutAir : Type := mkChessnutAir {
  _connection : option BleakClient;
  board_state : buffer;
  _old_data : buffer;
  _led_command : list Z;
  _board_changed : bool;
  cur_fen : Py.str;
  to_blink : chess.SquareSet;
  to_light : chess.SquareSet;
  tick : bool
}.

(** [ChessnutAir.__init__] *)
Definition __init__ : ChessnutAir :=
  {| _connection := None;
     board_state := PyList (repeat 0 32);
     _old_data := PyList (repeat 0 32);
     _led_command := [0x0A; 0x08];
     _board_changed := false;
     cur_fen := Py.lit " ";
     to_blink := chess.SquareSet_of_int 0;
     to_light := chess.SquareSet_of_int 0;
     tick := false |}.

Definition set_connection (c : option BleakClient) (s : ChessnutAir) :=
  mkChessnutAir c (board_state s) (_old_data s) (_led_command s)
    (_board_changed s) (cur_fen s) (to_blink s) (to_light s) (tick s).
Definition set_board_state (b : buffer) (s : ChessnutAir) :=
  mkChessnutAir (_connection s) b (_old_data s) (_led_command s)
    (_board_changed s) (cur_fen s) (to_blink s) (to_light s) (tick s).
Definition set_old_data (b : buffer) (s : ChessnutAir) :=
  mkChessnutAir (_connection s) (board_state s) b (_led_command s)
    (_board_changed s) (cur_fen s) (to_blink s) (to_light s) (tick s).
Definition set_board_changed (f : bool) (s : ChessnutAir) :=
  mkChessnutAir (_connection s) (board_state s) (_old_data s) (_led_command s)
    f (cur_fen s) (to_blink s) (to_light s) (tick s).
Definition set_cur_fen (f : Py.str) (s : ChessnutAir) :=
  mkChessnutAir (_connection s) (board_state s) (_old_data s) (_led_command s)
    (_board_changed s) f (to_blink s) (to_light s) (tick s).
Definition set_to_blink (b : chess.SquareSet) (s : ChessnutAir) :=
  mkChessnutAir (_connection s) (board_state s) (_old_data s) (_led_command s)
    (_board_changed s) (cur_fen s) b (to_light s) (tick s).
Definition set_to_light (l : chess.SquareSet) (s : ChessnutAir) :=
  mkChessnutAir (_connection s) (board_state s) (_old_data s) (_led_command s)
    (_board_changed s) (cur_fen s) (to_blink s) l (tick s).
Definition set_tick (t : bool) (s : ChessnutAir) :=
  mkChessnutAir (_connection s) (board_state s) (_old_data s) (_led_command s)
    (_board_changed s) (cur_fen s) (to_blink s) (to_light s) t.

(** ** Coroutines over the session

    A method is a function of the session that returns its result (or the
    exception it raised), the session it leaves, and the trace of what it
    did to its environment, in order. *)

Section Coroutine.
Context {T : Type}.

Definition coro (A : Type) : Type :=
  ChessnutAir -> (exn + A) * ChessnutAir * list T.

Definition ret {A} (a : A) : coro A := fun s => (inr a, s, []).
Definition raise {A} (e : exn) : coro A := fun s => (inl e, s, []).
Definition bind {A B} (m : coro A) (k : A -> coro B) : coro B :=
  fun s =>
    match m s with
    | (inl e, s1, t1) => (inl e, s1, t1)
    | (inr a, s1, t1) =>
        match k a s1 with
        | (r, s2, t2) => (r, s2, t1 ++ t2)
        end
    end.
Definition emit (t : T) : coro unit := fun s => (inr tt, s, [t]).
Definition get : coro ChessnutAir := fun s => (inr s, s, []).
Definition modify (f : ChessnutAir -> ChessnutAir) : coro unit :=
  fun s => (inr tt, f s, []).
Definition lift {A} (r : exn + A) : coro A :=
  match r with inl e => raise e | inr a => ret a end.

(** [for i in l: body(i)] *)
Fixpoint for_each {I} (l : list I) (body : I -> coro unit) : coro unit :=
  match l with
  | [] => ret tt
  | i :: rest => bind (body i) (fun _ => for_each rest body)
  end.

End Coroutine.

Notation "'let*' x := m 'in' k" := (bind m (fun x => k))
  (at level 10, x name, m at level 100, k at level 200).
Notation "'let*' '_' := m 'in' k" := (bind m (fun _ => k))
  (at level 10, m at level 100, k at level 200).

(** ** The LED encoder and the blink scheduler *)

(** What a coroutine of the session does to the outside: a write to the
    board's characteristic, or a sleep. *)
Inductive io : Type :=
| WriteGatt (payload : list Z)
| Sleep (d : Q).

(** The argument of [change_leds]: [None], a list of square names, or a
    [chess.SquareSet]. *)
Inductive led_request : Type :=
| ReqNone
| ReqList (names : list Py.str)
| ReqSquareSet (squares : chess.SquareSet).

Definition conv_letter : gmap ascii Z :=
  list_to_map [("a", 128); ("b", 64); ("c", 32); ("d", 16);
               ("e", 8); ("f", 4); ("g", 2); ("h", 1)]%char.

Definition conv_number : gmap ascii Z :=
  list_to_map [("1", 7); ("2", 6); ("3", 5); ("4", 4);
               ("5", 3); ("6", 2); ("7", 1); ("8", 0)]%char.

Definition and_then {A B} (r : exn + A) (k : A -> exn + B) : exn + B :=
  match r with inl e => inl e | inr a => k a end.

(** [arr[conv_number[pos[1]]] |= conv_letter[pos[0]]] *)
Definition light_pos (arr : exn + list Z) (pos : Py.str) : exn + list Z :=
  and_then arr (fun arr =>
  and_then (Py.index pos 1) (fun digit =>
  and_then (Py.getitem conv_number digit) (fun k =>
  and_then (Py.index arr (Z.to_nat k)) (fun cur =>
  and_then (Py.index pos 0) (fun letter =>
  and_then (Py.getitem conv_letter letter) (fun bit =>
  inr (<[Z.to_nat k := Z.lor cur bit]> arr))))))).

(** [self._connection.write_gatt_char(WRITE_CHARACTERISTIC, payload)] *)
Definition write_gatt_char (payload : ChessnutAir -> list Z)
  : coro (T := io) unit :=
  let* s := get in
  match _connection s with
  | None => raise AttributeError
  | Some _ => emit (WriteGatt (payload s))
  end.

(** [ChessnutAir.change_leds] *)
Definition change_leds (list_of_pos : led_request) : coro (T := io) unit :=
  match list_of_pos with
  | ReqSquareSet squares =>
      let* arr :=
        lift (to_bytes_big 8 (chess.flip_horizontal (chess.int squares))) in
      write_gatt_char (fun s => _led_command s ++ arr)
  | ReqNone => ret tt
  | ReqList names =>
      let* arr := lift (fold_left light_pos names (inr (repeat 0 8))) in
      write_gatt_char (fun s => _led_command s ++ arr)
  end.

Definition Qltb (x y : Q) : bool := negb (Qle_bool y x).

(** [ChessnutAir.blink_tick] *)
Definition blink_tick (sleep_time : Q) : coro (T := io) unit :=
  let* _ := modify (fun s => set_tick (negb (tick s)) s) in
  let* s := get in
  let* _ :=
    if tick s
    then change_leds (ReqSquareSet (chess.union (to_blink s) (to_light s)))
    else change_leds (ReqSquareSet (to_light s)) in
  if Qltb 0 sleep_time then emit (Sleep sleep_time) else ret tt.

(** ** Waiting for a change *)

(** The session together with the reading of [time.time()]. *)
Definition world : Type := (ChessnutAir * Q)%type.

(** One turn of the polling loop as seen from outside: the clock when
    [blink_tick] was entered and what the tick did. *)
Record turn : Type := mkTurn { entered : Q; did : list io }.

(** The rest of the program while [blink_tick] is suspended in its write and
    its sleep: the notification handler may run and the clock moves on.
    [blink_tick] reads nothing of the session after its first suspension,
    so what happens during both is one step, from the world the tick left
    to the world the loop resumes in.  It is given what the tick did. *)
Definition environment : Type := list io -> world -> world.

(** [time.time() >= end_time] *)
Definition deadline_reached (end_time : option Q) (now : Q) : bool :=
  match end_time with
  | Some t => Qle_bool t now
  | None => false
  end.

(** The loop of [board_has_changed]; [None] when [fuel] turns were not
    enough to leave it. *)
Fixpoint wait_loop (others : environment) (fuel : nat)
    (end_time : option Q) (nap : Q) (w : world)
  : option (exn + bool) * world * list turn :=
  match fuel with
  | O => (None, w, [])
  | S fuel' =>
      if _board_changed (fst w) then (Some (inr true), w, [])
      else if deadline_reached end_time (snd w) then (Some (inr false), w, [])
      else
        match blink_tick nap (fst w) with
        | (inl e, s', t) => (Some (inl e), (s', snd w), [mkTurn (snd w) t])
        | (inr _, s', t) =>
            match wait_loop others fuel' end_time nap
                    (others t (s', snd w)) with
            | (r, w', ts) => (r, w', mkTurn (snd w) t :: ts)
            end
        end
  end.

(** The nearest integer to a rational that is not negative, a tie going to
    the even one. *)
Definition round_half_even (q : Q) : Z :=
  let f := Qfloor q in
  match Qcompare (q - inject_Z f) (1 # 2) with
  | Lt => f
  | Gt => f + 1
  | Eq => if Z.even f then f else f + 1
  end.

(** The exponent [e] with [2 ^ e <= a < 2 ^ (e + 1)], for a positive [a]. *)
Definition binade (a : Q) : Z :=
  let e := Z.log2 (Qnum a) - Z.log2 (Zpos (Qden a)) in
  if Qle_bool (Qpower 2 e) a then e else e - 1.

(** The double nearest to a rational (IEEE 754 binary64, round to nearest,
    ties to even): 53 bits of significand, the exponent not below that of
    the subnormal numbers; [None] when the result is beyond the largest
    double, that is, an infinity. *)
Definition round_double (x : Q) : option Q :=
  if Qeq_bool x 0 then Some 0%Q
  else
    let a := Qabs x in
    let e := Z.max (binade a) (-1022) in
    let ulp := Qpower 2 (e - 52) in
    let r := (inject_Z (round_half_even (a / ulp)) * ulp)%Q in
    if Qle_bool (Qpower 2 1024) r then None
    else Some (Qred (if Qle_bool 0 x then r else - r)).

(** [x + y] for two doubles: the exact sum, rounded.  The program adds a
    positive timeout to a clock reading, so that an infinite sum is
    [math.inf]. *)
Definition float_add (x y : Q) : option Q := round_double (x + y).

(** The double a decimal literal such as [0.1] denotes. *)
Definition double_of (q : Q) : Q := default 0%Q (round_double q).

(** The end of the wait: [time.time()+timeout if timeout > 0 else math.inf] *)
Definition end_time_of (timeout now : Q) : option Q :=
  if Qltb 0 timeout then float_add now timeout else None.

(** [sleep_time if sleep_time < timeout or timeout == 0.0 else timeout] *)
Definition nap_of (timeout sleep_time : Q) : Q :=
  if Qltb sleep_time timeout || Qeq_bool timeout 0 then sleep_time
  else timeout.

(** [ChessnutAir.board_has_changed] *)
Definition board_has_changed (others : environment) (fuel : nat)
    (timeout sleep_time : Q) (w : world)
  : option (exn + bool) * world * list turn :=
  let s := set_board_changed false (fst w) in
  wait_loop others fuel (end_time_of timeout (snd w))
    (nap_of timeout sleep_time) (s, snd w).

(** A punctual environment: no notification arrives, a sleep takes exactly
    the time asked for and a write takes none. *)
Definition slept (t : list io) : Q :=
  fold_left (fun acc a => match a with Sleep d => (acc + d)%Q | _ => acc end)
            t 0%Q.
Definition punctual : environment := fun t w =>
  (fst w, (snd w + slept t)%Q).

(** An environment in which no notification arrives and the clock is a
    double that each sleep is added to. *)
Definition double_clock : environment := fun t w =>
  (fst w, default (snd w) (float_add (snd w) (slept t))).

(** An environment in which no notification arrives and a tick that writes
    a frame and sleeps [nap] takes at least [step], for every [nap] that is
    not below [step]. *)
Definition uneventful (others : environment) (step : Q) : Prop :=
  forall payload nap s now,
    (step <= nap)%Q ->
    fst (others [WriteGatt payload; Sleep nap] (s, now)) = s
    /\ (now + step <= snd (others [WriteGatt payload; Sleep nap] (s, now)))%Q.

(** ** Callbacks of the consumer *)

(** A consumer's [piece_up] or [piece_down]: it may change the session and
    may raise. *)
Definition callback : Type :=
  Z -> chess.Piece -> ChessnutAir -> option exn * ChessnutAir.

Inductive direction : Type := Up | Down.

#[global] Instance direction_eq_dec : EqDecision direction.
Proof. solve_decision. Defined.

(** One callback invocation: which callback, its arguments, and the
    session the callback was entered with. *)
Record call : Type := mkCall {
  dir : direction;
  loc : Z;
  what : chess.Piece;
  seen : ChessnutAir
}.

(** ** Vocabulary of the LED properties *)

(** A session that can transmit: connected, with the command prefix the
    constructor installed. *)
Definition ready (s : ChessnutAir) : Prop :=
  is_Some (_connection s) /\ _led_command s = [0x0A; 0x08].

(** [chess.square_name(chess.square(file, rank))]: files and ranks count
    from 0, so file 0 is [a] and rank 0 is [1]. *)
Definition square_name (file rank : Z) : Py.str :=
  [Py.chr (97 + file); Py.chr (49 + rank)].

Definition is_square_name (pos : Py.str) : Prop :=
  exists file rank,
    0 <= file < 8 /\ 0 <= rank < 8 /\ pos = square_name file rank.

(** Whether a request asks for the square of a file and a rank. *)
Definition requested (req : led_request) (file rank : Z) : bool :=
  match req with
  | ReqNone => false
  | ReqList names => bool_decide (square_name file rank ∈ names)
  | ReqSquareSet squares => chess.contains squares (chess.square file rank)
  end.

(** A request other than [None]; a list holds square names only. *)
Definition well_formed (req : led_request) : Prop :=
  match req with
  | ReqNone => False
  | ReqList names => Forall is_square_name names
  | ReqSquareSet _ => True
  end.

(** The LED of a square in a frame: rank 1 is byte 7, file [a] is bit 7. *)
Definition led (frame : list Z) (file rank : Z) : bool :=
  Z.testbit (nth (Z.to_nat (7 - rank)) frame 0) (7 - file).

Definition is_frame (arr : list Z) : Prop :=
  length arr = 8%nat /\ Forall (fun b => 0 <= b < 256) arr.

Fixpoint zrange (start : Z) (n : nat) : list Z :=
  match n with
  | O => []
  | S n' => start :: zrange (start + 1) n'
  end.

(** The squares whose LED a frame lights. *)
Definition lit_squares (frame : list Z) : list Z :=
  filter (fun sq =>
            led frame (chess.square_file sq) (chess.square_rank sq) = true)
         (zrange 0 64).

Definition E4 : Z := 28.
Definition E5 : Z := 36.

Definition connected_board : ChessnutAir :=
  set_connection (Some (Client "board")) __init__.

(** A connected session whose steady set is {e4} and blinking set {e5}. *)
Definition blink_scene (tick0 : bool) : ChessnutAir :=
  set_tick tick0
    (set_to_light (chess.SquareSet_of_squares [E4])
       (set_to_blink (chess.SquareSet_of_squares [E5]) connected_board)).

(** ** Vocabulary of the wait *)


(** ** Vocabulary of the change detector *)

(** A change the detector must report: the direction, the square and the
    nibble whose piece the event carries. *)
Record event : Type := mkEvent {
  ev_dir : direction;
  ev_loc : Z;
  ev_nibble : Z
}.

(** The event of one nibble that went from [old] to [new]: none when it did
    not change, piece-up with the old nibble when it became 0, piece-down
    with the new nibble otherwise. *)
Definition nibble_change (sq old new : Z) : list event :=
  if bool_decide (old = new) then []
  else if bool_decide (new = 0) then [mkEvent Up sq old]
  else [mkEvent Down sq new].

(** The events of two buffers from byte [i] on: byte by byte in ascending
    order, the low nibble (square [63 - 2i]) before the high one. *)
Fixpoint changes_from (i : Z) (old new : list Z) : list event :=
  match old, new with
  | o :: old', n :: new' =>
      nibble_change (63 - 2 * i) (o mod 16) (n mod 16)
      ++ nibble_change (63 - (2 * i + 1)) (o / 16) (n / 16)
      ++ changes_from (i + 1) old' new'
  | _, _ => []
  end.

Definition expected_events (old new : list Z) : list event :=
  changes_from 0 old new.


(** A callback that leaves the two board buffers of the session alone. *)
Definition keeps_buffers (cb : callback) : Prop :=
  forall l p s,
    board_state (snd (cb l p s)) = board_state s
    /\ _old_data (snd (cb l p s)) = _old_data s.

(** The session the loop of [_handler] starts from. *)
Definition replaced (rdata : buffer) (s : ChessnutAir) : ChessnutAir :=
  set_old_data rdata (set_board_state rdata (set_board_changed true s)).

(** Whether one of the two buffers has fewer than 32 bytes. *)
Definition too_short (old new : list Z) : bool :=
  (length new <? 32)%nat || (length old <? 32)%nat.

(** A callback that does nothing. *)
Definition quiet : callback := fun _ _ s => (None, s).

(** [ChessnutAir.piece_up] and [ChessnutAir.piece_down] as the class defines
    them, for a consumer that did not override them. *)
Definition not_overridden : callback :=
  fun _ _ s => (Some NotImplementedError, s).


(** ** Vocabulary of the notation *)

(** The piece field of one square of the notation: the piece's symbol, or
    the marker of an empty square. *)
Definition square_char (p : option chess.Piece) : ascii :=
  match p with Some p => chess.symbol p | None => "1"%char end.

(** The digit that closes a run of [c] empty squares. *)
Definition flush (c : Z) : Py.str :=
  if 0 <? c then Py.str_of_int c else [].

(** The text of a rank whose squares hold [ps], after [c] empty squares. *)
Fixpoint rank_text (c : Z) (ps : list (option chess.Piece)) : Py.str :=
  match ps with
  | [] => flush c
  | Some p :: ps => flush c ++ [chess.symbol p] ++ rank_text 0 ps
  | None :: ps => rank_text (c + 1) ps
  end.

Definition on_file_a (sq : Z) : bool :=
  chess.contains (chess.SquareSet_of_int chess.BB_FILE_A) sq.

(** A character of a rank's text: neither the rank separator nor
    whitespace. *)
Definition plain (ch : ascii) : Prop :=
  ch <> "/"%char /\ Py.isspace ch = false.

(** ** A table and sample boards *)

(** Modelled from the spec: [constants.convertDict], which the program
    imports from a module that is not among the sources.  The spec fixes
    its shape, "a fixed nibble->symbol mapping (12 piece codes + empty)"
    with nibble 0 the empty square, so three of the sixteen nibble values
    have no entry; this is the table of the Chessnut Air protocol.  The
    theorems below hold for every table and use this one as an instance. *)
Definition convertDict_air : gmap Z Py.str :=
  list_to_map
    (map (fun e => (fst e, Py.lit (snd e)))
         [(0, " "); (1, "q"); (2, "k"); (3, "b"); (4, "p"); (5, "n");
          (6, "R"); (7, "P"); (8, "r"); (9, "B"); (10, "N"); (11, "Q");
          (12, "K")]%string).

(** The buffer of the starting position. *)
Definition start_buffer : list Z :=
  [0x58; 0x23; 0x31; 0x85; 0x44; 0x44; 0x44; 0x44]
  ++ repeat 0 16
  ++ [0x77; 0x77; 0x77; 0x77; 0xA6; 0xC9; 0x9B; 0x6A].

(** A session tracking the starting position. *)
Definition tracking_start : ChessnutAir :=
  set_old_data (ByteArray start_buffer)
    (set_board_state (ByteArray start_buffer) connected_board).

(** The payload that follows the starting position when the pawn on h2 is
    lifted: the low nibble of byte 24 goes from 7 to 0. *)
Definition h2_lifted : list Z := <[24%nat := 0x70]> start_buffer.
Definition h2_lifted_payload : list Z := [0; 0] ++ h2_lifted.

(** The payload that follows the starting position when the pawns on h2
    and g2 are both lifted: byte 24 goes from 0x77 to 0. *)
Definition two_lifted_payload : list Z :=
  [0; 0] ++ <[24%nat := 0x00]> start_buffer.




(** ** Animations *)

(** [chess.FILE_NAMES], [chess.RANK_NAMES] and [chess.SQUARE_NAMES]
    ([[f + r for r in RANK_NAMES for f in FILE_NAMES]]). *)
Definition FILE_NAMES : list ascii :=
  ["a"; "b"; "c"; "d"; "e"; "f"; "g"; "h"]%char.
Definition RANK_NAMES : list ascii :=
  ["1"; "2"; "3"; "4"; "5"; "6"; "7"; "8"]%char.
Definition SQUARE_NAMES : list Py.str :=
  flat_map (fun r => map (fun f => [f; r]) FILE_NAMES) RANK_NAMES.

(** [l.index(x)]: the first position of [x], [ValueError] when there is
    none. *)
Fixpoint list_index (x : Py.str) (l : list Py.str) : exn + Z :=
  match l with
  | [] => inl ValueError
  | y :: l' =>
      if bool_decide (x = y) then inr 0
      else match list_index x l' with
           | inl e => inl e
           | inr k => inr (k + 1)
           end
  end.

(** [chess.parse_square(name)] *)
Definition parse_square (name : Py.str) : exn + Z :=
  list_index name SQUARE_NAMES.

(** The squares [map(lambda s: chess.parse_square(s), frame)] gives to the
    [SquareSet] constructor, which stops at the first name that does not
    parse. *)
Fixpoint parse_all (frame : list Py.str) : exn + list Z :=
  match frame with
  | [] => inr []
  | name :: rest =>
      and_then (parse_square name) (fun sq =>
      and_then (parse_all rest) (fun sqs => inr (sq :: sqs)))
  end.

(** [ChessnutAir.play_animation] *)
Definition play_animation (list_of_frames : list (list Py.str))
    (sleep_time : Q) : coro (T := io) unit :=
  for_each list_of_frames (fun frame =>
    let* squares := lift (parse_all frame) in
    let* _ := change_leds (ReqSquareSet (chess.SquareSet_of_squares squares)) in
    emit (Sleep sleep_time)).

(** A name [change_leds] can light: a file letter, a rank digit, and
    whatever follows. *)
Definition lightable (pos : Py.str) : Prop :=
  exists file rank rest,
    0 <= file < 8 /\ 0 <= rank < 8
    /\ pos = Py.chr (97 + file) :: Py.chr (49 + rank) :: rest.

(** ** Discovery *)

(** A [BLEDevice] as the scanner reports it; a device may have no name. *)
Record BLEDevice : Type := mkBLEDevice {
  device_name : option Py.str;
  device_address : Py.str
}.

(** The two attributes of the session that discovery reads and writes:
    [deviceNameList], which the constructor takes from
    [constants.DEVICE_LIST], and [_device]. *)
Record discovery : Type := mkDiscovery {
  deviceNameList : list Py.str;
  _device : option BLEDevice
}.

(** [TypeError], which [ext in None] raises. *)
Inductive type_error : Type := TypeError.

(** [s.startswith(prefix)] *)
Fixpoint startswith (s prefix : Py.str) : bool :=
  match prefix, s with
  | [], _ => true
  | p :: prefix', c :: s' => bool_decide (c = p) && startswith s' prefix'
  | _ :: _, [] => false
  end.

(** [ext in name] for two strings. *)
Fixpoint str_contains (name ext : Py.str) : bool :=
  startswith name ext
  || match name with
     | [] => false
     | _ :: name' => str_contains name' ext
     end.

(** [any(ext in device.name for ext in names)] *)
Fixpoint any_in (name : option Py.str) (names : list Py.str)
  : type_error + bool :=
  match names with
  | [] => inr false
  | ext :: rest =>
      match name with
      | None => inl TypeError
      | Some n => if str_contains n ext then inr true else any_in name rest
      end
  end.

(** [ChessnutAir._filter_by_name] *)
Definition _filter_by_name (device : BLEDevice) (d : discovery)
  : (type_error + bool) * discovery :=
  match any_in (device_name device) (deviceNameList d) with
  | inl e => (inl e, d)
  | inr true => (inr true, mkDiscovery (deviceNameList d) (Some device))
  | inr false => (inr false, d)
  end.

(** ** Board decoding, notation and comparison *)

(** What the decoder yields: a square and the piece on it, if any. *)
Definition item : Type := (Z * option chess.Piece)%type.

(** A generator that has run: the items it yielded, and the exception that
    ended it if one did. *)
Definition generated : Type := (list item * option exn)%type.

Fixpoint gen_for (l : list nat) (body : nat -> generated) : generated :=
  match l with
  | [] => ([], None)
  | i :: rest =>
      match body i with
      | (ys, Some e) => (ys, Some e)
      | (ys, None) =>
          match gen_for rest body with
          | (zs, r) => (ys ++ zs, r)
          end
      end
  end.

Section Board.

(** [constants.convertDict], the nibble-to-symbol table.  The module
    [constants] is not part of the sources at hand; the table is a
    parameter of everything that reads it. *)
Variable convertDict : gmap Z Py.str.

(** [chess.Piece.from_symbol(s) if s != ' ' else None] *)
Definition piece_or_none (s : Py.str) : exn + option chess.Piece :=
  if bool_decide (s <> Py.lit " ") then
    match chess.from_symbol s with
    | inl e => inl e
    | inr p => inr (Some p)
    end
  else inr None.

(** One round of the loop of [board_state_as_square_and_piece]. *)
Definition yield_pair (board_state : buffer) (i : nat) : generated :=
  match Py.index (elems board_state) i with
  | inl e => ([], Some e)
  | inr pair_i =>
      let left := Z.land pair_i 0xf in
      let right := Z.shiftr pair_i 4 in
      match Py.getitem convertDict left with
      | inl e => ([], Some e)
      | inr str_left =>
          match piece_or_none str_left with
          | inl e => ([], Some e)
          | inr pl =>
              let first := (63 - Z.of_nat i * 2, pl) in
              match Py.getitem convertDict right with
              | inl e => ([first], Some e)
              | inr str_right =>
                  match piece_or_none str_right with
                  | inl e => ([first], Some e)
                  | inr pr =>
                      ([first; (63 - (Z.of_nat i * 2 + 1), pr)], None)
                  end
              end
          end
      end
  end.

(** [board_state_as_square_and_piece(board_state)] *)
Definition board_state_as_square_and_piece (board_state : buffer)
  : generated :=
  gen_for (seq 0 32) (yield_pair board_state).

(** The local state of [board_state_as_fen]: [fen] and [empty_count]. *)
Definition handle_empties (st : Py.str * Z) : Py.str * Z :=
  if 0 <? snd st then (fst st ++ Py.str_of_int (snd st), 0) else st.

Definition fen_step (st : Py.str * Z) (it : item) : Py.str * Z :=
  let st :=
    match snd it with
    | Some piece =>
        let st := handle_empties st in
        (fst st ++ [chess.symbol piece], snd st)
    | None => (fst st, snd st + 1)
    end in
  if chess.contains (chess.SquareSet_of_int chess.BB_FILE_A) (fst it)
  then let st := handle_empties st in (fst st ++ Py.lit "/", snd st)
  else st.

(** The string the loop of [board_state_as_fen] builds. *)
Definition raw_fen (items : list item) : Py.str :=
  fst (fold_left fen_step items ([], 0)).

(** ['/'.join(map(lambda row: ''.join(reversed(row)), fen[:-1].split('/')))] *)
Definition mirror_rows (fen : Py.str) : Py.str :=
  Py.join (Py.lit "/")
    (map (fun row => rev row) (Py.split_on "/" (Py.drop_last fen))).

(** [ChessnutAir.board_state_as_fen] *)
Definition board_state_as_fen (s : ChessnutAir)
  : (exn + Py.str) * ChessnutAir :=
  match board_state_as_square_and_piece (board_state s) with
  | (_, Some e) => (inl e, s)
  | (items, None) =>
      let cur := mirror_rows (raw_fen items) in
      (inr cur, set_cur_fen cur s)
  end.

(** The function [convert_fen] maps over its argument:
    ["1" * int(p) if p.isdigit() and p != '1' else p] *)
Definition expand_digit (p : ascii) : Py.str :=
  if Py.isdigit p && bool_decide (p <> "1"%char)
  then Py.repeat_char "1" (Py.digit_value p)
  else [p].

(** [convert_fen], local to [compare_board_state_to_fen]. *)
Definition convert_fen (fen : Py.str) : exn + Py.str :=
  match Py.index (Py.split_ws fen) 0 with
  | inl e => inl e
  | inr fen => inr (concat (map expand_digit fen))
  end.

Definition difference : Type :=
  (option chess.Piece * Z * option chess.Piece)%type.

(** The body of the loop of [compare_board_state_to_fen]. *)
Definition compare_step (target : Py.str)
    (acc : exn + list difference) (it : item) : exn + list difference :=
  match acc with
  | inl e => inl e
  | inr differences =>
      match Py.index target (Z.to_nat (fst it)) with
      | inl e => inl e
      | inr c =>
          let new_piece :=
            if bool_decide (c <> "1"%char) then
              match chess.from_symbol [c] with
              | inl e => inl e
              | inr p => inr (Some p)
              end
            else inr None in
          match new_piece with
          | inl e => inl e
          | inr new_piece =>
              if bool_decide (snd it <> new_piece)
              then inr (differences ++ [(snd it, fst it, new_piece)])
              else inr differences
          end
      end
  end.

(** [ChessnutAir.compare_board_state_to_fen] *)
Definition compare_board_state_to_fen (target_fen : Py.str)
    (s : ChessnutAir) : exn + list difference :=
  match convert_fen target_fen with
  | inl e => inl e
  | inr converted =>
      let target := concat (rev (Py.split_on "/" converted)) in
      match board_state_as_square_and_piece (board_state s) with
      | (items, err) =>
          match fold_left (compare_step target) items (inr []) with
          | inl e => inl e
          | inr differences =>
              match err with
              | Some e => inl e
              | None => inr differences
              end
          end
      end
  end.

(** ** The notification handler *)

Variable piece_up piece_down : callback.

Definition invoke (d : direction) (l : Z) (p : chess.Piece)
  : coro (T := call) unit :=
  fun s =>
    match (match d with Up => piece_up | Down => piece_down end) l p s with
    | (Some e, s') => (inl e, s', [mkCall d l p s])
    | (None, s') => (inr tt, s', [mkCall d l p s])
    end.

(** [send_message], local to [_handler]. *)
Definition send_message (l old new : Z) : coro (T := call) unit :=
  if bool_decide (old <> new) then
    if bool_decide (new = 0) then
      let* sym := lift (Py.getitem convertDict old) in
      let* p := lift (chess.from_symbol sym) in
      invoke Up l p
    else
      let* sym := lift (Py.getitem convertDict new) in
      let* p := lift (chess.from_symbol sym) in
      invoke Down l p
  else ret tt.

(** [data[2:34]] *)
Definition payload_slice (data : list Z) : buffer :=
  ByteArray (take 32 (drop 2 data)).

(** The body of the loop of [_handler] at byte [i], for the new buffer
    [rdata] and the old one [od]. *)
Definition compare_byte (rdata od : buffer) (i : nat)
  : coro (T := call) unit :=
  let* ri := lift (Py.index (elems rdata) i) in
  let* oi := lift (Py.index (elems od) i) in
  if bool_decide (ri <> oi) then
    let cur_left := Z.land ri 0xf in
    let old_left := Z.land oi 0xf in
    let cur_right := Z.shiftr ri 4 in
    let old_right := Z.shiftr oi 4 in
    let* _ := send_message (63 - Z.of_nat i * 2) old_left cur_left in
    send_message (63 - (Z.of_nat i * 2 + 1)) old_right cur_right
  else ret tt.

(** [ChessnutAir._handler] *)
Definition _handler (data : list Z) : coro (T := call) unit :=
  let rdata := payload_slice data in
  let* s := get in
  if bool_decide (rdata <> _old_data s) then
    let* _ := modify (set_board_changed true) in
    let* _ := modify (set_board_state rdata) in
    let* s' := get in
    let od := _old_data s' in
    let* _ := modify (set_old_data rdata) in
    for_each (seq 0 32) (compare_byte rdata od)
  else ret tt.

(** ** Vocabulary that reads the table and the callbacks *)

(** What a nibble decodes to: its table entry, read as a piece unless it is
    the empty symbol.  [None] when the nibble has no piece-symbol mapping. *)
Definition decode_nibble (n : Z) : option (option chess.Piece) :=
  match convertDict !! n with
  | Some sym =>
      match piece_or_none sym with
      | inr p => Some p
      | inl _ => None
      end
  | None => None
  end.

Definition mapped (n : Z) : Prop := is_Some (decode_nibble n).

Definition piece_of_nibble (n : Z) : option chess.Piece :=
  default None (decode_nibble n).

(** The two items of byte [i] of a buffer. *)
Definition low_item (board : buffer) (i : nat) : item :=
  (63 - 2 * Z.of_nat i, piece_of_nibble (nth i (elems board) 0 mod 16)).
Definition high_item (board : buffer) (i : nat) : item :=
  (63 - (2 * Z.of_nat i + 1), piece_of_nibble (nth i (elems board) 0 / 16)).

(** The items of a buffer, and those of its [r]-th rank from the top. *)
Definition board_items (board : buffer) : list item :=
  concat (map (fun i => [low_item board i; high_item board i]) (seq 0 32)).
Definition rank_items (board : buffer) (r : nat) : list item :=
  concat (map (fun i => [low_item board i; high_item board i])
              (seq (4 * r) 4)).

Definition rank_row (board : buffer) (r : nat) : Py.str :=
  rank_text 0 (map snd (rank_items board r)).

(** What [convert_fen] does to the board field. *)
Definition expand (s : Py.str) : Py.str := concat (map expand_digit s).

(** The piece a nibble stands for in an event:
    [chess.Piece.from_symbol(convertDict[nibble])]. *)
Definition nibble_piece (n : Z) : exn + chess.Piece :=
  and_then (Py.getitem convertDict n) chess.from_symbol.

Definition callback_of (d : direction) : callback :=
  match d with Up => piece_up | Down => piece_down end.

(** Delivering one event to the consumer. *)
Definition deliver (e : event) : coro (T := call) unit :=
  let* p := lift (nibble_piece (ev_nibble e)) in
  invoke (ev_dir e) (ev_loc e) p.


(** How the loop of [_handler] ends once the bytes both buffers have are
    compared: with [IndexError] when one of them has fewer than [n]. *)
Definition loop_end (n : nat) (old new : list Z) : coro (T := call) unit :=
  if (length new <? n)%nat || (length old <? n)%nat
  then raise IndexError else ret tt.

(** Byte [i] of a buffer can be decoded: the buffer has it and both its
    nibbles are mapped. *)
Definition decodable (board : buffer) (i : nat) : Prop :=
  exists b, elems board !! i = Some b
            /\ mapped (b mod 16) /\ mapped (b / 16).

(** What the comparison reports for a square, given its item on the board
    and its item on the target: nothing when the pieces agree, otherwise
    the piece on the board, the square, and the piece on the target. *)
Definition differing (its : item * item) : option difference :=
  if bool_decide (snd (fst its) = snd (snd its)) then None
  else Some (snd (fst its), fst (fst its), snd (snd its)).

(** The squares on which two boards differ, from square 63 down. *)
Definition board_differences (board target : buffer) : list difference :=
  omap differing (zip (board_items board) (board_items target)).



(** What a symbol of the table stands for, in the words of the
    specification: the empty symbol for no piece, and the symbol of a piece
    ([p], [N], ...) for that piece. *)
Definition stands_for (sym : Py.str) (p : option chess.Piece) : Prop :=
  match p with
  | None => sym = Py.lit " "
  | Some p => sym = [chess.symbol p]
  end.

(** The translation of a nibble through the table. *)
Definition translates (n : Z) (p : option chess.Piece) : Prop :=
  exists sym, convertDict !! n = Some sym /\ stands_for sym p.

(** * Properties *)

(** ** Square names *)

Lemma small_nat_cases (n : Z) (bound : nat) :
  0 <= n < Z.of_nat bound -> exists k : nat, n = Z.of_nat k /\ (k < bound)%nat.
Proof. intros H. exists (Z.to_nat n). lia. Qed.

(** Without the reversed flag every square 0..63 gets a file letter a-h and
    a rank digit 1-8. *)
Lemma loc_to_pos_plain (location : Z) :
  0 <= location < 64 ->
  exists file rank,
    0 <= file < 8 /\ 0 <= rank < 8
    /\ loc_to_pos location false = square_name file rank.
Proof.
  intros H. destruct (small_nat_cases location 64 H) as (k & -> & Hk).
  exists (7 - Z.of_nat k mod 8), (7 - Z.of_nat k / 8).
  split; [| split].
  - pose proof (Z.mod_pos_bound (Z.of_nat k) 8 ltac:(lia)). lia.
  - assert (0 <= Z.of_nat k / 8 < 8); [| lia].
    split; [apply Z.div_pos; lia | apply Z.div_lt_upper_bound; lia].
  - do 64 (destruct k as [| k]; [vm_compute; reflexivity |]). lia.
Qed.

(** C7: with the reversed flag the rank is [location // 8], which is 0 on the
    first eight squares: the rank digit there is "0", not one of 1-8. *)
Theorem loc_to_pos_reversed_rank_zero :
  map (fun location => loc_to_pos location true) (zrange 0 8)
  = map Py.lit ["h0"; "g0"; "f0"; "e0"; "d0"; "c0"; "b0"; "a0"]%string.
Proof. vm_compute. reflexivity. Qed.

(** ** The LED frame *)

(** One halving step of [flip_horizontal], bit by bit. *)
Lemma swap_step_bit (b m k n : Z) :
  0 <= k ->
  Z.testbit (Z.lor (Z.land (Z.shiftr b k) m) (Z.shiftl (Z.land b m) k)) n
  = if Z.testbit m (n - k)
    then (if Z.testbit m n then Z.testbit b (n + k) || Z.testbit b (n - k)
          else Z.testbit b (n - k))
    else (if Z.testbit m n then Z.testbit b (n + k) else false).
Proof.
  intros Hk.
  destruct (Z.ltb_spec n 0) as [Hn | Hn].
  - rewrite !(Z.testbit_neg_r _ n) by lia.
    rewrite (Z.testbit_neg_r _ (n - k)) by lia. reflexivity.
  - rewrite Z.lor_spec, Z.land_spec, Z.shiftr_spec, Z.shiftl_spec by lia.
    rewrite Z.land_spec.
    destruct (Z.testbit m (n - k)), (Z.testbit m n),
      (Z.testbit b (n + k)), (Z.testbit b (n - k)); reflexivity.
Qed.

(** [flip_horizontal] mirrors the files within each rank. *)
Lemma flip_horizontal_bit (bb n : Z) :
  0 <= n < 64 ->
  Z.testbit (chess.flip_horizontal bb) n
  = Z.testbit bb (8 * (n / 8) + (7 - n mod 8)).
Proof.
  intros Hn. unfold chess.flip_horizontal.
  rewrite !swap_step_bit by lia.
  generalize (Z.testbit bb). intros f.
  destruct (small_nat_cases n 64 Hn) as (k & -> & Hk).
  do 64 (destruct k as [| k]; [vm_compute; reflexivity |]).
  lia.
Qed.

Lemma flip_horizontal_high_bit (bb n : Z) :
  64 <= n -> Z.testbit (chess.flip_horizontal bb) n = false.
Proof.
  intros Hn. unfold chess.flip_horizontal.
  rewrite swap_step_bit by lia.
  rewrite (Z.bits_above_log2 0x0f0f0f0f0f0f0f0f (n - 4)) by (simpl; lia).
  rewrite (Z.bits_above_log2 0x0f0f0f0f0f0f0f0f n) by (simpl; lia).
  reflexivity.
Qed.

Lemma flip_horizontal_nonneg (bb : Z) :
  0 <= bb -> 0 <= chess.flip_horizontal bb.
Proof.
  intros H. unfold chess.flip_horizontal.
  repeat first [ apply Z.lor_nonneg; split
               | apply Z.land_nonneg; right; lia
               | apply Z.shiftl_nonneg ].
Qed.

Lemma flip_horizontal_range (bb : Z) :
  0 <= bb -> 0 <= chess.flip_horizontal bb < 2 ^ 64.
Proof.
  intros H. pose proof (flip_horizontal_nonneg bb H) as Hf.
  split; [exact Hf |].
  destruct (Z.eq_dec (chess.flip_horizontal bb) 0) as [-> | Hne]; [lia |].
  apply Z.log2_lt_pow2; [lia |].
  destruct (Z.ltb_spec (Z.log2 (chess.flip_horizontal bb)) 64) as [? | Hge];
    [assumption |].
  pose proof (Z.bit_log2 (chess.flip_horizontal bb) ltac:(lia)) as Hbit.
  rewrite flip_horizontal_high_bit in Hbit by lia. discriminate.
Qed.

Lemma contains_testbit (squares : chess.SquareSet) (sq : Z) :
  0 <= sq -> chess.contains squares sq = Z.testbit (chess.mask squares) sq.
Proof.
  intros Hsq. unfold chess.contains. rewrite Z.shiftl_1_l.
  destruct (Z.testbit (chess.mask squares) sq) eqn:Hbit.
  - apply negb_true_iff, Z.eqb_neq. intros H0.
    assert (Hb : Z.testbit (Z.land (2 ^ sq) (chess.mask squares)) sq = true).
    { rewrite Z.land_spec, Z.pow2_bits_true, Hbit by lia. reflexivity. }
    rewrite H0, Z.bits_0 in Hb. discriminate.
  - apply negb_false_iff, Z.eqb_eq, Z.bits_inj'. intros i Hi.
    rewrite Z.land_spec, Z.bits_0, Z.pow2_bits_eqb by lia.
    destruct (Z.eqb_spec sq i) as [-> | ?]; [now rewrite Hbit | reflexivity].
Qed.

Lemma union_contains (a b : chess.SquareSet) (sq : Z) :
  0 <= sq < 64 ->
  chess.contains (chess.union a b) sq
  = chess.contains a sq || chess.contains b sq.
Proof.
  intros Hsq. rewrite !contains_testbit by lia.
  unfold chess.union, chess.SquareSet_of_int, chess.int. simpl.
  rewrite Z.lor_spec, Z.land_spec.
  change chess.BB_ALL with (Z.ones 64). rewrite Z.ones_spec_low by lia.
  rewrite andb_true_r. apply orb_comm.
Qed.

Lemma big_endian_led (x file rank : Z) :
  0 <= file < 8 -> 0 <= rank < 8 ->
  led (big_endian 8 x) file rank = Z.testbit x (8 * rank + (7 - file)).
Proof.
  intros Hf Hr. unfold led.
  destruct (small_nat_cases rank 8 Hr) as (k & -> & Hk).
  do 8 (destruct k as [| k];
        [cbn [big_endian seq map nth Z.to_nat Z.of_nat Pos.to_nat];
         vm_compute (Z.to_nat _); cbn [nth];
         rewrite Z.land_spec, Z.shiftr_spec by lia;
         change 255 with (Z.ones 8); rewrite Z.ones_spec_low by lia;
         rewrite andb_true_r; f_equal; lia |]).
  lia.
Qed.

Lemma big_endian_frame (x : Z) : is_frame (big_endian 8 x).
Proof.
  split; [reflexivity |].
  unfold big_endian. apply Forall_map, Forall_forall. intros k _. cbv beta.
  change 255 with (Z.ones 8). rewrite Z.land_ones by lia.
  change 256 with (2 ^ 8). apply Z.mod_pos_bound. reflexivity.
Qed.

(** The frame of a square set lights exactly its squares. *)
Lemma frame_led (squares : chess.SquareSet) (file rank : Z) :
  0 <= file < 8 -> 0 <= rank < 8 ->
  led (big_endian 8 (chess.flip_horizontal (chess.int squares))) file rank
  = chess.contains squares (chess.square file rank).
Proof.
  intros Hf Hr.
  rewrite big_endian_led, flip_horizontal_bit by lia.
  rewrite contains_testbit by (unfold chess.square; lia).
  unfold chess.int, chess.square. f_equal.
  assert ((8 * rank + (7 - file)) / 8 = rank) as ->.
  { symmetry. apply (Z.div_unique _ 8 rank (7 - file)); lia. }
  assert ((8 * rank + (7 - file)) mod 8 = 7 - file) as ->.
  { symmetry. apply (Z.mod_unique _ 8 rank (7 - file)); lia. }
  lia.
Qed.

Lemma mask_bounds (squares : chess.SquareSet) :
  0 <= chess.int squares < 2 ^ 64.
Proof.
  pose proof (chess.mask_range squares) as H.
  apply andb_prop in H as [H1 H2]. apply Z.leb_le in H1, H2.
  unfold chess.int, chess.BB_ALL in *. lia.
Qed.

Lemma to_bytes_flip (squares : chess.SquareSet) :
  to_bytes_big 8 (chess.flip_horizontal (chess.int squares))
  = inr (big_endian 8 (chess.flip_horizontal (chess.int squares))).
Proof.
  pose proof (mask_bounds squares) as Hm.
  pose proof (flip_horizontal_range (chess.int squares) ltac:(lia)) as Hf.
  unfold to_bytes_big.
  destruct (Z.ltb_spec (chess.flip_horizontal (chess.int squares)) 0); [lia |].
  change (256 ^ Z.of_nat 8) with (2 ^ 64).
  destruct (Z.leb_spec (2 ^ 64) (chess.flip_horizontal (chess.int squares)));
    [lia | reflexivity].
Qed.

Lemma write_gatt_char_run (payload : ChessnutAir -> list Z)
    (s : ChessnutAir) :
  write_gatt_char payload s
  = match _connection s with
    | None => (inl AttributeError, s, [])
    | Some _ => (inr tt, s, [WriteGatt (payload s)])
    end.
Proof.
  unfold write_gatt_char, bind, get. destruct (_connection s); reflexivity.
Qed.

Lemma change_leds_squares (squares : chess.SquareSet) (s : ChessnutAir) :
  is_Some (_connection s) ->
  change_leds (ReqSquareSet squares) s
  = (inr tt, s,
     [WriteGatt (_led_command s
             ++ big_endian 8 (chess.flip_horizontal (chess.int squares)))]).
Proof.
  intros [c Hc]. unfold change_leds. rewrite to_bytes_flip.
  unfold bind, lift, ret. rewrite write_gatt_char_run, Hc. reflexivity.
Qed.

(** *** Requests given as a list of square names *)

Lemma code_chr (z : Z) : 0 <= z < 256 -> Py.code (Py.chr z) = z.
Proof.
  intros H. unfold Py.code, Py.chr.
  rewrite N_ascii_embedding by lia. lia.
Qed.

Lemma square_name_inj (f1 r1 f2 r2 : Z) :
  0 <= f1 < 8 -> 0 <= r1 < 8 -> 0 <= f2 < 8 -> 0 <= r2 < 8 ->
  square_name f1 r1 = square_name f2 r2 -> f1 = f2 /\ r1 = r2.
Proof.
  intros ? ? ? ? H. unfold square_name in H.
  injection H as Hf Hr.
  apply (f_equal Py.code) in Hf, Hr.
  rewrite !code_chr in Hf, Hr by lia. lia.
Qed.

Lemma conv_number_rank (rank : Z) :
  0 <= rank < 8 -> conv_number !! Py.chr (49 + rank) = Some (7 - rank).
Proof.
  intros H. destruct (small_nat_cases rank 8 H) as (k & -> & Hk).
  do 8 (destruct k as [| k]; [vm_compute; reflexivity |]). lia.
Qed.

Lemma conv_letter_file (file : Z) :
  0 <= file < 8 -> conv_letter !! Py.chr (97 + file) = Some (2 ^ (7 - file)).
Proof.
  intros H. destruct (small_nat_cases file 8 H) as (k & -> & Hk).
  do 8 (destruct k as [| k]; [vm_compute; reflexivity |]). lia.
Qed.

Lemma light_pos_square (arr : list Z) (file rank : Z) :
  length arr = 8%nat -> 0 <= file < 8 -> 0 <= rank < 8 ->
  light_pos (inr arr) (square_name file rank)
  = inr (<[Z.to_nat (7 - rank) :=
            Z.lor (nth (Z.to_nat (7 - rank)) arr 0) (2 ^ (7 - file))]> arr).
Proof.
  intros Hlen Hf Hr. unfold light_pos, and_then, Py.index, Py.getitem. simpl.
  rewrite conv_number_rank, conv_letter_file by lia.
  destruct (arr !! Z.to_nat (7 - rank)) as [cur |] eqn:Hcur.
  - rewrite (nth_lookup_Some _ _ 0 _ Hcur). reflexivity.
  - apply lookup_ge_None in Hcur. lia.
Qed.

Lemma light_one_led (arr : list Z) (f r file rank : Z) :
  length arr = 8%nat ->
  0 <= f < 8 -> 0 <= r < 8 -> 0 <= file < 8 -> 0 <= rank < 8 ->
  led (<[Z.to_nat (7 - r) :=
          Z.lor (nth (Z.to_nat (7 - r)) arr 0) (2 ^ (7 - f))]> arr)
      file rank
  = led arr file rank
    || bool_decide (square_name file rank = square_name f r).
Proof.
  intros Hlen Hf Hr Hfile Hrank. unfold led.
  destruct (Z.eq_dec rank r) as [-> | Hne].
  - rewrite (nth_lookup_Some _ _ 0
               (Z.lor (nth (Z.to_nat (7 - r)) arr 0) (2 ^ (7 - f)))).
    2: { apply list_lookup_insert_eq. lia. }
    rewrite Z.lor_spec, Z.pow2_bits_eqb by lia. f_equal.
    destruct (Z.eqb_spec (7 - f) (7 - file)) as [E | E].
    + assert (file = f) as -> by lia. now rewrite bool_decide_eq_true_2.
    + rewrite bool_decide_eq_false_2; [reflexivity |].
      intros Heq. apply square_name_inj in Heq; lia.
  - rewrite (bool_decide_eq_false_2 (square_name file rank = square_name f r)).
    2: { intros Heq. apply square_name_inj in Heq; lia. }
    rewrite orb_false_r. f_equal.
    rewrite !nth_lookup. rewrite list_lookup_insert_ne by lia. reflexivity.
Qed.

Lemma light_one_frame (arr : list Z) (f r : Z) :
  is_frame arr -> 0 <= f < 8 -> 0 <= r < 8 ->
  is_frame (<[Z.to_nat (7 - r) :=
               Z.lor (nth (Z.to_nat (7 - r)) arr 0) (2 ^ (7 - f))]> arr).
Proof.
  intros [Hlen Hall] Hf Hr. split; [now rewrite length_insert |].
  apply Forall_insert; [exact Hall |].
  assert (Hin : 0 <= nth (Z.to_nat (7 - r)) arr 0 < 256).
  { rewrite Forall_forall in Hall. apply Hall.
    apply list_elem_of_In, nth_In. lia. }
  change 256 with (2 ^ 8).
  apply lor_below_pow2; [lia | exact Hin |].
  split; [lia |]. apply Z.pow_lt_mono_r; lia.
Qed.

(** Lighting a list of square names adds exactly their LEDs to a frame. *)
Lemma light_all (names : list Py.str) :
  Forall is_square_name names ->
  forall arr, is_frame arr ->
  exists arr',
    fold_left light_pos names (inr arr) = inr arr'
    /\ is_frame arr'
    /\ forall file rank, 0 <= file < 8 -> 0 <= rank < 8 ->
         led arr' file rank
         = led arr file rank || bool_decide (square_name file rank ∈ names).
Proof.
  induction 1 as [| pos names (f & r & Hf & Hr & ->) _ IH]; intros arr Harr.
  - exists arr. split; [reflexivity |]. split; [exact Harr |].
    intros file rank _ _.
    rewrite bool_decide_eq_false_2 by apply not_elem_of_nil.
    now rewrite orb_false_r.
  - cbn [fold_left]. rewrite light_pos_square by (try apply Harr; lia).
    destruct (IH _ (light_one_frame arr f r Harr Hf Hr))
      as (arr' & Hfold & Hfr & Hled).
    exists arr'. split; [exact Hfold |]. split; [exact Hfr |].
    intros file rank Hfile Hrank.
    rewrite Hled, light_one_led by (try apply Harr; lia).
    rewrite <- orb_assoc. f_equal.
    destruct (decide (square_name file rank = square_name f r)) as [E | E].
    + rewrite (bool_decide_eq_true_2 _ E). simpl. symmetry.
      apply bool_decide_eq_true_2. rewrite E. apply list_elem_of_here.
    + rewrite (bool_decide_eq_false_2 _ E). simpl.
      apply bool_decide_ext. rewrite elem_of_cons. tauto.
Qed.

Lemma change_leds_names (names : list Py.str) (s : ChessnutAir) :
  is_Some (_connection s) -> Forall is_square_name names ->
  exists frame,
    change_leds (ReqList names) s
    = (inr tt, s, [WriteGatt (_led_command s ++ frame)])
    /\ is_frame frame
    /\ forall file rank, 0 <= file < 8 -> 0 <= rank < 8 ->
         led frame file rank = bool_decide (square_name file rank ∈ names).
Proof.
  intros [c Hc] Hnames.
  destruct (light_all names Hnames (repeat 0 8))
    as (frame & Hfold & Hfr & Hled).
  { split; [reflexivity |]. repeat constructor; lia. }
  exists frame. split; [| split; [exact Hfr |]].
  - unfold change_leds. rewrite Hfold.
    unfold bind, lift, ret. rewrite write_gatt_char_run, Hc. reflexivity.
  - intros file rank Hf Hr. rewrite (Hled file rank Hf Hr).
    destruct (small_nat_cases rank 8 Hr) as (k & -> & Hk).
    unfold led.
    do 8 (destruct k as [| k];
          [vm_compute (nth _ _ _); now rewrite Z.bits_0 |]).
    lia.
Qed.

(** *** The command of a request *)

(** C5: for a connected session and a request that is not [None] (a square
    set, or a list of square names), [change_leds] writes one command, the
    prefix 0x0A 0x08 followed by a frame of 8 bytes; in the frame rank 1 is
    byte 7 and rank 8 byte 0, file a is bit 7 and file h bit 0, and a bit
    is set exactly when its square is requested. *)
Theorem change_leds_command (req : led_request) (s : ChessnutAir) :
  ready s -> well_formed req ->
  exists frame,
    change_leds req s = (inr tt, s, [WriteGatt (0x0A :: 0x08 :: frame)])
    /\ length frame = 8%nat
    /\ Forall (fun b => 0 <= b < 256) frame
    /\ forall file rank, 0 <= file < 8 -> 0 <= rank < 8 ->
         led frame file rank = requested req file rank.
Proof.
  intros [Hconn Hcmd] Hreq. destruct req as [| names | squares].
  - destruct Hreq.
  - destruct (change_leds_names names s Hconn Hreq)
      as (frame & Hrun & [Hlen Hb] & Hled).
    exists frame. rewrite Hrun, Hcmd. auto.
  - exists (big_endian 8 (chess.flip_horizontal (chess.int squares))).
    rewrite change_leds_squares, Hcmd by exact Hconn.
    destruct (big_endian_frame (chess.flip_horizontal (chess.int squares)))
      as [Hlen Hb].
    split; [reflexivity |]. split; [exact Hlen |]. split; [exact Hb |].
    intros file rank Hf Hr. now apply frame_led.
Qed.

(** C8: on a connected session an empty request, whether an empty square
    set or an empty list, is written as the command whose frame is eight
    zero bytes; [None] writes nothing and leaves the session as it was,
    connected or not. *)
Theorem change_leds_empty_or_none (s : ChessnutAir) :
  is_Some (_connection s) ->
  (forall squares, chess.int squares = 0 ->
     change_leds (ReqSquareSet squares) s
     = (inr tt, s, [WriteGatt (_led_command s ++ [0; 0; 0; 0; 0; 0; 0; 0])]))
  /\ change_leds (ReqList []) s
     = (inr tt, s, [WriteGatt (_led_command s ++ [0; 0; 0; 0; 0; 0; 0; 0])])
  /\ forall s', change_leds ReqNone s' = (inr tt, s', []).
Proof.
  intros Hconn. split; [| split].
  - intros squares H0. rewrite change_leds_squares by exact Hconn.
    rewrite H0. reflexivity.
  - destruct Hconn as [c Hc]. unfold change_leds. simpl.
    unfold bind, lift, ret. rewrite write_gatt_char_run, Hc. reflexivity.
  - reflexivity.
Qed.

(** C9: on a connected session [blink_tick] toggles [tick] and then writes
    one frame (and sleeps when asked a positive time): the frame lights
    the squares of [to_blink] or [to_light] when the new flag is on and
    those of [to_light] alone when it is off.  With steady = {e4} and
    blinking = {e5} the off tick lights e4 only and the on tick e4 and e5. *)
Theorem blink_tick_alternates :
  (forall (sleep_time : Q) (s : ChessnutAir),
     is_Some (_connection s) ->
     exists frame,
       blink_tick sleep_time s
       = (inr tt, set_tick (negb (tick s)) s,
          WriteGatt (_led_command s ++ frame)
          :: (if Qltb 0 sleep_time then [Sleep sleep_time] else []))
       /\ length frame = 8%nat
       /\ forall file rank, 0 <= file < 8 -> 0 <= rank < 8 ->
            led frame file rank
            = if negb (tick s)
              then chess.contains (to_blink s) (chess.square file rank)
                   || chess.contains (to_light s) (chess.square file rank)
              else chess.contains (to_light s) (chess.square file rank))
  /\ (exists frame,
        blink_tick 0 (blink_scene true)
        = (inr tt, blink_scene false, [WriteGatt (0x0A :: 0x08 :: frame)])
        /\ lit_squares frame = [E4])
  /\ (exists frame,
        blink_tick 0 (blink_scene false)
        = (inr tt, blink_scene true, [WriteGatt (0x0A :: 0x08 :: frame)])
        /\ lit_squares frame = [E4; E5]).
Proof.
  split; [| split].
  - intros sleep_time s Hconn.
    assert (Hconn' : is_Some (_connection (set_tick (negb (tick s)) s)))
      by exact Hconn.
    unfold blink_tick, bind, modify, get. cbn [tick set_tick].
    destruct (negb (tick s)) eqn:Ht.
    + rewrite change_leds_squares by exact Hconn'.
      exists (big_endian 8 (chess.flip_horizontal
                (chess.int (chess.union (to_blink s) (to_light s))))).
      split; [| split; [reflexivity |]].
      * destruct (Qltb 0 sleep_time); reflexivity.
      * intros file rank Hf Hr.
        rewrite frame_led by lia.
        apply union_contains. unfold chess.square. lia.
    + rewrite change_leds_squares by exact Hconn'.
      exists (big_endian 8 (chess.flip_horizontal (chess.int (to_light s)))).
      split; [| split; [reflexivity |]].
      * destruct (Qltb 0 sleep_time); reflexivity.
      * intros file rank Hf Hr.
        now rewrite frame_led by lia.
  - exists [0; 0; 0; 0; 8; 0; 0; 0]. split; vm_compute; reflexivity.
  - exists [0; 0; 0; 8; 8; 0; 0; 0]. split; vm_compute; reflexivity.
Qed.

(** ** Waiting for a change *)

Lemma Qltb_lt (x y : Q) : Qltb x y = true <-> (x < y)%Q.
Proof.
  unfold Qltb. rewrite negb_true_iff. split.
  - intros H. apply Qnot_le_lt. intros Hle.
    apply Qle_bool_iff in Hle. congruence.
  - intros H. destruct (Qle_bool y x) eqn:E; [| reflexivity].
    apply Qle_bool_iff in E. apply Qlt_not_le in H. contradiction.
Qed.








(** ** The decoder *)

Lemma low_nibble (b : Z) : Z.land b 0xf = b mod 16.
Proof. change 0xf with (Z.ones 4). now rewrite Z.land_ones by lia. Qed.

Lemma high_nibble (b : Z) : Z.shiftr b 4 = b / 16.
Proof. now rewrite Z.shiftr_div_pow2 by lia. Qed.

Lemma gen_for_all_yield (l : list nat) (body : nat -> generated)
    (f : nat -> list item) :
  (forall i, i ∈ l -> body i = (f i, None)) ->
  gen_for l body = (concat (map f l), None).
Proof.
  induction l as [| i l IH]; intros H; [reflexivity |].
  cbn [gen_for map concat]. rewrite (H i) by apply list_elem_of_here.
  rewrite IH; [reflexivity |].
  intros j Hj. apply H. now apply list_elem_of_further.
Qed.

Lemma yield_pair_mapped (board : buffer) (i : nat) (b : Z)
    (pl pr : option chess.Piece) :
  elems board !! i = Some b ->
  decode_nibble (b mod 16) = Some pl -> decode_nibble (b / 16) = Some pr ->
  yield_pair board i
  = ([(63 - 2 * Z.of_nat i, pl); (63 - (2 * Z.of_nat i + 1), pr)], None).
Proof.
  intros Hb Hl Hr. unfold yield_pair, Py.index, Py.getitem. rewrite Hb.
  rewrite low_nibble, high_nibble.
  unfold decode_nibble in Hl, Hr.
  destruct (convertDict !! (b mod 16)) as [sl |]; [| discriminate].
  destruct (piece_or_none sl) as [? | pl']; [discriminate |].
  destruct (convertDict !! (b / 16)) as [sr |]; [| discriminate].
  destruct (piece_or_none sr) as [? | pr']; [discriminate |].
  injection Hl as ->. injection Hr as ->.
  replace (Z.of_nat i * 2) with (2 * Z.of_nat i) by lia. reflexivity.
Qed.

Lemma lookup_pairs {A B} (f g : A -> B) (l : list A) (k : nat) (x : A) :
  l !! k = Some x ->
  concat (map (fun a => [f a; g a]) l) !! (2 * k)%nat = Some (f x)
  /\ concat (map (fun a => [f a; g a]) l) !! (2 * k + 1)%nat = Some (g x).
Proof.
  revert k. induction l as [| a l IH]; intros k H; [discriminate |].
  destruct k as [| k].
  - injection H as ->. split; reflexivity.
  - cbn [map concat]. replace (2 * S k)%nat with (S (S (2 * k))) by lia.
    apply (IH k H).
Qed.

(** A buffer of 32 bytes whose nibbles are all mapped decodes without an
    exception, to the items of its bytes in order. *)
Lemma decoder_mapped (board : buffer) :
  length (elems board) = 32%nat ->
  (forall b, b ∈ elems board -> mapped (b mod 16) /\ mapped (b / 16)) ->
  board_state_as_square_and_piece board = (board_items board, None).
Proof.
  intros Hlen Hmap. unfold board_state_as_square_and_piece, board_items.
  apply gen_for_all_yield. intros i Hi.
  apply elem_of_seq in Hi.
  destruct (elems board !! i) as [b |] eqn:Hb.
  2: { apply lookup_ge_None in Hb. lia. }
  destruct (Hmap b) as [[pl Hl] [pr Hr]].
  { apply list_elem_of_lookup. eauto. }
  unfold low_item, high_item, piece_of_nibble.
  rewrite (nth_lookup_Some _ _ 0 _ Hb), Hl, Hr. cbn [default].
  exact (yield_pair_mapped board i b pl pr Hb Hl Hr).
Qed.

(** The symbol of a piece is read back as that piece, and is not the empty
    symbol. *)
Lemma symbol_read_back (p : chess.Piece) :
  chess.from_symbol [chess.symbol p] = inr p
  /\ [chess.symbol p] <> Py.lit " ".
Proof. destruct p as [[] []]; split; (reflexivity || discriminate). Qed.

(** What [from_symbol] accepts is the symbol of the piece it returns. *)
Lemma from_symbol_inv (sym : Py.str) (p : chess.Piece) :
  chess.from_symbol sym = inr p -> sym = [chess.symbol p].
Proof.
  destruct sym as [| c [| c' sym]]; [discriminate | | discriminate].
  destruct c as [[] [] [] [] [] [] [] []]; intros H; vm_compute in H;
    (discriminate H || (injection H as <-; reflexivity)).
Qed.

Lemma translates_decodes (n : Z) (p : option chess.Piece) :
  translates n p -> decode_nibble n = Some p.
Proof.
  intros (sym & Hsym & Hp). unfold decode_nibble, piece_or_none.
  rewrite Hsym. destruct p as [p |]; cbn [stands_for] in Hp; subst sym.
  - destruct (symbol_read_back p) as [Hread Hne].
    now rewrite (bool_decide_eq_true_2 _ Hne), Hread.
  - reflexivity.
Qed.

Lemma decodes_translates (n : Z) (p : option chess.Piece) :
  decode_nibble n = Some p -> translates n p.
Proof.
  unfold decode_nibble, piece_or_none, translates.
  destruct (convertDict !! n) as [sym |]; [| discriminate].
  destruct (decide (sym = Py.lit " ")) as [-> | E].
  - intros [= <-]. eexists. split; reflexivity.
  - rewrite (bool_decide_eq_true_2 _ E).
    destruct (chess.from_symbol sym) as [e | q] eqn:Hq; [discriminate |].
    intros [= <-]. exists sym. split; [reflexivity |].
    exact (from_symbol_inv sym q Hq).
Qed.

(** A nibble has one translation at most. *)
Lemma translates_functional (n : Z) (p p' : option chess.Piece) :
  translates n p -> translates n p' -> p = p'.
Proof.
  intros H H'. apply translates_decodes in H, H'. congruence.
Qed.

(** C1: a buffer of 32 bytes whose nibbles all have a piece-symbol mapping
    (a table entry that is the empty symbol or the symbol of a piece) is
    decoded without an exception into 64 items; byte [i] gives item [2i],
    square [63 - 2i] with the translation of its low nibble, and item
    [2i + 1], square [63 - (2i + 1)] with the translation of its high
    nibble, the translation of a nibble being no piece when its table
    entry is the empty symbol and the piece whose symbol the entry is
    otherwise. *)
Theorem decoder_square_layout (board : buffer) :
  length (elems board) = 32%nat ->
  (forall b, b ∈ elems board ->
     (exists p, translates (b mod 16) p)
     /\ (exists p, translates (b / 16) p)) ->
  exists items,
    board_state_as_square_and_piece board = (items, None)
    /\ length items = 64%nat
    /\ forall (i : nat) (b : Z),
         elems board !! i = Some b ->
         exists pl pr,
           translates (b mod 16) pl
           /\ translates (b / 16) pr
           /\ items !! (2 * i)%nat = Some (63 - 2 * Z.of_nat i, pl)
           /\ items !! (2 * i + 1)%nat
              = Some (63 - (2 * Z.of_nat i + 1), pr).
Proof.
  intros Hlen Htr.
  assert (Hmap : forall b, b ∈ elems board ->
                   mapped (b mod 16) /\ mapped (b / 16)).
  { intros b Hb. destruct (Htr b Hb) as [[pl Hl] [pr Hr]].
    unfold mapped. rewrite (translates_decodes _ _ Hl),
      (translates_decodes _ _ Hr). eauto. }
  exists (board_items board).
  split; [apply decoder_mapped; assumption |].
  split; [reflexivity |].
  intros i b Hb.
  destruct (Htr b) as [[pl Hl] [pr Hr]].
  { apply list_elem_of_lookup. eauto. }
  exists pl, pr. split; [exact Hl |]. split; [exact Hr |].
  apply translates_decodes in Hl, Hr.
  assert (Hi : (i < 32)%nat) by (apply lookup_lt_Some in Hb; lia).
  assert (Hseq : seq 0 32 !! i = Some i) by (apply lookup_seq; lia).
  destruct (lookup_pairs (low_item board) (high_item board)
              (seq 0 32) i i Hseq) as [H1 H2].
  split; [etrans; [exact H1 |] | etrans; [exact H2 |]];
    unfold low_item, high_item, piece_of_nibble;
    rewrite (nth_lookup_Some _ _ 0 _ Hb), ?Hl, ?Hr; reflexivity.
Qed.

(** What a nibble decodes to, spelled out: no piece for the empty symbol,
    the piece of the symbol otherwise. *)
Lemma decode_nibble_symbol (n : Z) (sym : Py.str) :
  convertDict !! n = Some sym ->
  decode_nibble n
  = if bool_decide (sym = Py.lit " ") then Some None
    else match chess.from_symbol sym with
         | inr p => Some (Some p)
         | inl _ => None
         end.
Proof.
  intros H. unfold decode_nibble, piece_or_none. rewrite H.
  destruct (decide (sym = Py.lit " ")) as [E | E].
  - rewrite (bool_decide_eq_false_2 (sym <> Py.lit " ")) by tauto.
    now rewrite (bool_decide_eq_true_2 _ E).
  - rewrite (bool_decide_eq_true_2 _ E).
    rewrite (bool_decide_eq_false_2 _ E).
    destruct (chess.from_symbol sym); reflexivity.
Qed.

(** ** The notification handler *)

(** *** Laws of coroutines *)

Lemma bind_assoc {T A B C} (m : coro (T := T) A) (k : A -> coro B)
    (h : B -> coro C) (s : ChessnutAir) :
  bind (bind m k) h s = bind m (fun a => bind (k a) h) s.
Proof.
  unfold bind. destruct (m s) as [[[e | a] s1] t1]; [reflexivity |].
  destruct (k a s1) as [[[e | b] s2] t2]; [reflexivity |].
  destruct (h b s2) as [[r s3] t3]. now rewrite app_assoc.
Qed.

Lemma bind_ext {T A B} (m : coro (T := T) A) (k1 k2 : A -> coro B)
    (s : ChessnutAir) :
  (forall a s', k1 a s' = k2 a s') -> bind m k1 s = bind m k2 s.
Proof.
  intros H. unfold bind. destruct (m s) as [[[e | a] s1] t1]; [reflexivity |].
  now rewrite H.
Qed.

Lemma for_each_app {T I} (l1 l2 : list I) (body : I -> coro (T := T) unit)
    (s : ChessnutAir) :
  for_each (l1 ++ l2) body s
  = bind (for_each l1 body) (fun _ => for_each l2 body) s.
Proof.
  revert s. induction l1 as [| i l1 IH]; intros s.
  - simpl. unfold bind, ret. destruct (for_each l2 body s) as [[r s'] t].
    reflexivity.
  - simpl. rewrite bind_assoc. apply bind_ext. intros _ s'. apply IH.
Qed.

Lemma bind_for_each_app {T I A} (l1 l2 : list I)
    (body : I -> coro (T := T) unit) (k : unit -> coro A) (s : ChessnutAir) :
  bind (for_each (l1 ++ l2) body) k s
  = bind (for_each l1 body) (fun _ => bind (for_each l2 body) k) s.
Proof.
  unfold bind. rewrite for_each_app. unfold bind.
  destruct (for_each l1 body s) as [[[x | []] s1] t1]; [reflexivity |].
  destruct (for_each l2 body s1) as [[[x | []] s2] t2]; [reflexivity |].
  destruct (k tt s2) as [[r s3] t3]. now rewrite app_assoc.
Qed.

Lemma for_each_one {T I} (i : I) (body : I -> coro (T := T) unit)
    (s : ChessnutAir) :
  for_each [i] body s = body i s.
Proof.
  cbn [for_each]. unfold bind, ret.
  destruct (body i s) as [[[e | []] s1] t1]; [reflexivity |].
  now rewrite app_nil_r.
Qed.

(** *** The loop delivers the expected events *)

Lemma send_message_delivers (sq old new : Z) (s : ChessnutAir) :
  send_message sq old new s = for_each (nibble_change sq old new) deliver s.
Proof.
  unfold send_message, nibble_change.
  destruct (decide (old = new)) as [E | E].
  - rewrite (bool_decide_eq_false_2 (old <> new)) by tauto.
    now rewrite (bool_decide_eq_true_2 (old = new)).
  - rewrite (bool_decide_eq_true_2 (old <> new)) by exact E.
    rewrite (bool_decide_eq_false_2 (old = new)) by exact E.
    destruct (bool_decide (new = 0)); rewrite for_each_one;
      unfold deliver, nibble_piece, and_then, bind, lift;
      cbn [ev_nibble ev_dir ev_loc];
      destruct (Py.getitem convertDict _) as [e | sym]; try reflexivity;
      cbn; destruct (chess.from_symbol sym) as [e | p]; try reflexivity;
      unfold invoke; cbn;
      match goal with
      | |- context [piece_up ?l ?p ?s] =>
          destruct (piece_up l p s) as [[e |] s']
      | |- context [piece_down ?l ?p ?s] =>
          destruct (piece_down l p s) as [[e |] s']
      end; reflexivity.
Qed.

Lemma nibble_change_same (sq n : Z) : nibble_change sq n n = [].
Proof. unfold nibble_change. now rewrite bool_decide_eq_true_2. Qed.

Lemma changes_from_same (i : Z) (l : list Z) : changes_from i l l = [].
Proof.
  revert i. induction l as [| b l IH]; intros i; [reflexivity |].
  cbn [changes_from]. now rewrite !nibble_change_same, IH.
Qed.

Lemma compare_byte_delivers (rdata od : buffer) (i : nat) (ri oi : Z)
    (s : ChessnutAir) :
  elems rdata !! i = Some ri -> elems od !! i = Some oi ->
  compare_byte rdata od i s
  = for_each (nibble_change (63 - 2 * Z.of_nat i) (oi mod 16) (ri mod 16)
              ++ nibble_change (63 - (2 * Z.of_nat i + 1))
                   (oi / 16) (ri / 16))
             deliver s.
Proof.
  intros Hr Ho. unfold compare_byte, Py.index. rewrite Hr, Ho.
  cbn [lift]. unfold bind at 1 2. cbn [ret].
  rewrite !low_nibble, !high_nibble.
  replace (Z.of_nat i * 2) with (2 * Z.of_nat i) by lia.
  destruct (decide (ri = oi)) as [-> | E].
  - rewrite (bool_decide_eq_false_2 (oi <> oi)) by tauto.
    now rewrite !nibble_change_same.
  - rewrite (bool_decide_eq_true_2 _ E).
    rewrite for_each_app. unfold bind.
    rewrite send_message_delivers.
    destruct (for_each _ deliver s) as [[[e | []] s1] t1]; [reflexivity |].
    rewrite send_message_delivers.
    destruct (for_each _ deliver s1) as [[r s2] t2]. reflexivity.
Qed.

Lemma drop_cons_lookup {A} (l : list A) (i : nat) (x : A) (rest : list A) :
  drop i l = x :: rest -> l !! i = Some x /\ drop (S i) l = rest.
Proof.
  intros H. split.
  - rewrite <- (Nat.add_0_r i), <- lookup_drop, H. reflexivity.
  - change (S i) with (1 + i)%nat. rewrite Nat.add_comm, <- drop_drop, H.
    reflexivity.
Qed.

Lemma drop_nil_lookup {A} (l : list A) (i : nat) :
  drop i l = [] -> l !! i = None.
Proof.
  intros H. apply lookup_ge_None. apply (f_equal length) in H.
  rewrite length_drop in H. simpl in H. lia.
Qed.

(** The loop over [n] bytes from byte [i] delivers the events of the bytes
    both buffers have and then ends. *)
Lemma loop_delivers (rdata od : buffer) (n i : nat) (s : ChessnutAir) :
  for_each (seq i n) (compare_byte rdata od) s
  = bind (for_each (changes_from (Z.of_nat i) (take n (drop i (elems od)))
                      (take n (drop i (elems rdata))))
                   deliver)
         (fun _ => loop_end n (drop i (elems od)) (drop i (elems rdata))) s.
Proof.
  revert i s. induction n as [| n IH]; intros i s; [reflexivity |].
  cbn [seq for_each].
  destruct (drop i (elems rdata)) as [| ri rest_r] eqn:Er.
  { apply drop_nil_lookup in Er.
    rewrite take_nil. replace (changes_from _ _ []) with (@nil event)
      by (now destruct (take (S n) (drop i (elems od)))).
    unfold bind, compare_byte, bind, Py.index. rewrite Er. reflexivity. }
  destruct (drop i (elems od)) as [| oi rest_o] eqn:Eo.
  { apply drop_nil_lookup in Eo. apply drop_cons_lookup in Er as [Er _].
    unfold bind, compare_byte, bind, Py.index. rewrite Er, Eo.
    unfold loop_end. cbn [length Nat.ltb Nat.leb].
    rewrite orb_true_r. reflexivity. }
  apply drop_cons_lookup in Er as [Hri Er'].
  apply drop_cons_lookup in Eo as [Hoi Eo'].
  cbn [take changes_from].
  rewrite app_assoc, bind_for_each_app.
  unfold bind at 1 2.
  rewrite (compare_byte_delivers rdata od i ri oi s Hri Hoi).
  destruct (for_each _ deliver s) as [[[x | []] s1] t1]; [reflexivity |].
  rewrite IH, Er', Eo'.
  replace (Z.of_nat (S i)) with (Z.of_nat i + 1) by lia.
  reflexivity.
Qed.

Lemma handler_unchanged (data : list Z) (s : ChessnutAir) :
  payload_slice data = _old_data s -> _handler data s = (inr tt, s, []).
Proof.
  intros H. unfold _handler, bind, get.
  rewrite (bool_decide_eq_false_2 (payload_slice data <> _old_data s))
    by tauto.
  reflexivity.
Qed.

Lemma handler_changed (data : list Z) (s : ChessnutAir) :
  payload_slice data <> _old_data s ->
  _handler data s
  = for_each (seq 0 32) (compare_byte (payload_slice data) (_old_data s))
      (replaced (payload_slice data) s).
Proof.
  intros H. unfold _handler, bind at 1, get.
  rewrite (bool_decide_eq_true_2 _ H).
  unfold bind, modify. cbn [_old_data set_board_state set_board_changed].
  fold (replaced (payload_slice data) s).
  destruct (for_each _ _ _) as [[r s'] t]. reflexivity.
Qed.

(** A payload that differs from the previous buffer: the buffers are
    replaced, the events of the change are delivered, and [IndexError]
    ends the loop when a buffer is short. *)
Lemma handler_run (data : list Z) (s : ChessnutAir) :
  payload_slice data <> _old_data s ->
  _handler data s
  = match for_each (expected_events (take 32 (elems (_old_data s)))
                      (elems (payload_slice data)))
            deliver (replaced (payload_slice data) s) with
    | (inl x, s', t) => (inl x, s', t)
    | (inr _, s', t) =>
        (if too_short (elems (_old_data s)) (elems (payload_slice data))
         then inl IndexError else inr tt, s', t)
    end.
Proof.
  intros H. rewrite handler_changed by exact H.
  rewrite loop_delivers. rewrite !drop_0.
  assert (Htake : take 32 (elems (payload_slice data))
                  = elems (payload_slice data)).
  { unfold payload_slice. cbn [elems]. apply take_ge.
    rewrite length_take. lia. }
  rewrite Htake. unfold bind, expected_events.
  destruct (for_each _ _ _) as [[[x | []] s'] t]; [reflexivity |].
  unfold loop_end, too_short.
  destruct (_ || _); cbn; now rewrite app_nil_r.
Qed.

(** *** Delivering a list of events *)

Lemma deliver_step (e : event) (evs : list event) (s : ChessnutAir) :
  for_each (e :: evs) deliver s
  = match nibble_piece (ev_nibble e) with
    | inl x => (inl x, s, [])
    | inr p =>
        match callback_of (ev_dir e) (ev_loc e) p s with
        | (Some x, s1) => (inl x, s1, [mkCall (ev_dir e) (ev_loc e) p s])
        | (None, s1) =>
            match for_each evs deliver s1 with
            | (r, s2, t2) => (r, s2, mkCall (ev_dir e) (ev_loc e) p s :: t2)
            end
        end
    end.
Proof.
  cbn [for_each]. unfold bind at 1, deliver, bind, callback_of.
  destruct (nibble_piece (ev_nibble e)) as [x | p]; [reflexivity |].
  cbn [lift ret]. unfold invoke.
  destruct (match ev_dir e with Up => piece_up | Down => piece_down end
              (ev_loc e) p s) as [[x |] s1]; [reflexivity |].
  destruct (for_each evs deliver s1) as [[r s2] t2]. reflexivity.
Qed.




(** What the callbacks preserve holds of the session every callback is
    entered with, and of the session the delivery leaves. *)
Lemma deliver_all_keeps (P : ChessnutAir -> Prop) (evs : list event)
    (s : ChessnutAir) :
  (forall l p s, P s -> P (snd (piece_up l p s))) ->
  (forall l p s, P s -> P (snd (piece_down l p s))) ->
  P s ->
  P (for_each evs deliver s).1.2
  /\ Forall (fun c => P (seen c)) (for_each evs deliver s).2.
Proof.
  intros Hup Hdown. revert s. induction evs as [| e evs IH]; intros s Hs.
  - split; [exact Hs | constructor].
  - rewrite deliver_step.
    destruct (nibble_piece (ev_nibble e)) as [x | p];
      [split; [exact Hs | constructor] |].
    assert (H1 : P (snd (callback_of (ev_dir e) (ev_loc e) p s))).
    { destruct (ev_dir e); [apply Hup | apply Hdown]; exact Hs. }
    destruct (callback_of (ev_dir e) (ev_loc e) p s) as [[x |] s1];
      cbn in H1 |- *.
    + split; [exact H1 | repeat constructor; exact Hs].
    + destruct (IH s1 H1) as [IH1 IH2].
      destruct (for_each evs deliver s1) as [[r s2] t2]. cbn in *.
      split; [exact IH1 | constructor; [exact Hs | exact IH2]].
Qed.


(** *** The change detector *)





Lemma zrange_elem (start : Z) (n : nat) (z : Z) :
  z ∈ zrange start n <-> start <= z < start + Z.of_nat n.
Proof.
  revert start. induction n as [| n IH]; intros start; cbn [zrange].
  - rewrite elem_of_nil. lia.
  - rewrite elem_of_cons, IH. lia.
Qed.

Lemma zrange_NoDup (start : Z) (n : nat) : NoDup (zrange start n).
Proof.
  revert start. induction n as [| n IH]; intros start; cbn [zrange].
  - constructor.
  - constructor; [| apply IH]. rewrite zrange_elem. lia.
Qed.

(** A table of fewer than fifteen entries, such as one of twelve piece
    codes and the empty square, leaves one of the nibbles 1..15 without an
    entry. *)
Lemma some_nibble_unmapped :
  (size convertDict < 15)%nat ->
  exists n, 0 < n < 16 /\ convertDict !! n = None.
Proof.
  intros Hsize.
  destruct (decide (Forall (fun n => is_Some (convertDict !! n))
                      (zrange 1 15))) as [Hall | Hnot].
  - exfalso.
    assert (Hsub : (list_to_set (zrange 1 15) : gset Z) ⊆ dom convertDict).
    { intros n Hn. apply elem_of_list_to_set in Hn. apply elem_of_dom.
      rewrite Forall_forall in Hall. auto. }
    apply subseteq_size in Hsub.
    rewrite size_dom, size_list_to_set in Hsub by apply zrange_NoDup.
    cbn in Hsub. lia.
  - apply not_Forall_Exists in Hnot; [| intros n; apply _].
    apply Exists_exists in Hnot as (n & Hin & Hn).
    apply zrange_elem in Hin. exists n. split; [lia |].
    destruct (convertDict !! n) eqn:E; [| reflexivity].
    exfalso. apply Hn. eauto.
Qed.

(** Whatever the table, a nibble it has no entry for stops the handler:
    from the all-empty board, the payload that puts such a nibble on square
    63 has one differing nibble, and the handler raises [KeyError] without
    invoking a callback. *)
Lemma handler_raises_at_unmapped (n : Z) (s : ChessnutAir) :
  0 < n < 16 -> convertDict !! n = None ->
  elems (_old_data s) = repeat 0 32 ->
  expected_events (repeat 0 32) (n :: repeat 0 31) = [mkEvent Down 63 n]
  /\ _handler ([0; 0; n] ++ repeat 0 31) s
     = (inl KeyError,
        replaced (payload_slice ([0; 0; n] ++ repeat 0 31)) s, []).
Proof.
  intros Hn Hnone Hold.
  assert (Hev : expected_events (repeat 0 32) (n :: repeat 0 31)
                = [mkEvent Down 63 n]).
  { unfold expected_events.
    change (repeat 0 32) with (0 :: repeat 0 31). cbn [changes_from].
    rewrite changes_from_same, (Z.mod_small n 16), (Z.div_small n 16) by lia.
    change (0 mod 16) with 0. change (0 / 16) with 0.
    rewrite nibble_change_same. unfold nibble_change.
    rewrite !bool_decide_eq_false_2 by lia. reflexivity. }
  split; [exact Hev |].
  assert (Hslice : payload_slice ([0; 0; n] ++ repeat 0 31)
                   = ByteArray (n :: repeat 0 31)) by reflexivity.
  rewrite handler_run.
  2: { rewrite Hslice. intros E. apply (f_equal elems) in E.
       rewrite Hold in E. cbn [elems] in E. injection E as E. lia. }
  rewrite Hold, Hslice. cbn [elems].
  change (take 32 (repeat 0 32)) with (repeat 0 32).
  rewrite Hev, deliver_step. cbn [ev_nibble].
  unfold nibble_piece, Py.getitem. rewrite Hnone. reflexivity.
Qed.



(** ** The notation round trip *)

(** *** Strings *)

Lemma split_on_not_nil (sep : ascii) (s : Py.str) : Py.split_on sep s <> [].
Proof.
  destruct s as [| c s]; [discriminate |]. cbn [Py.split_on].
  destruct (bool_decide (c = sep)); [discriminate |].
  destruct (Py.split_on sep s); discriminate.
Qed.

Lemma split_on_clean (sep : ascii) (s : Py.str) :
  sep ∉ s -> Py.split_on sep s = [s].
Proof.
  induction s as [| c s IH]; intros H; [reflexivity |].
  apply not_elem_of_cons in H as [Hc Hs]. cbn [Py.split_on].
  rewrite bool_decide_eq_false_2 by congruence. now rewrite IH.
Qed.

Lemma split_on_app_sep (sep : ascii) (r rest : Py.str) :
  sep ∉ r ->
  Py.split_on sep (r ++ sep :: rest) = r :: Py.split_on sep rest.
Proof.
  induction r as [| c r IH]; intros H.
  - cbn [app Py.split_on]. now rewrite bool_decide_eq_true_2.
  - apply not_elem_of_cons in H as [Hc Hr].
    cbn [app Py.split_on]. rewrite bool_decide_eq_false_2 by congruence.
    now rewrite IH.
Qed.

Lemma split_on_join (sep : ascii) (rows : list Py.str) :
  rows <> [] -> Forall (fun r => sep ∉ r) rows ->
  Py.split_on sep (Py.join [sep] rows) = rows.
Proof.
  intros Hne Hall. induction Hall as [| r rows Hr Hall IH]; [contradiction |].
  destruct rows as [| r' rows].
  - cbn [Py.join]. now apply split_on_clean.
  - change (Py.join [sep] (r :: r' :: rows))
      with (r ++ sep :: Py.join [sep] (r' :: rows)).
    rewrite split_on_app_sep by exact Hr. now rewrite IH.
Qed.

Lemma split_ws_aux_clean (cur s : Py.str) :
  Forall (fun c => Py.isspace c = false) s -> cur ++ s <> [] ->
  Py.split_ws_aux cur s = [rev cur ++ s].
Proof.
  intros Hall. revert cur. induction Hall as [| c s Hc Hall IH]; intros cur Hne.
  - rewrite app_nil_r in *. cbn [Py.split_ws_aux].
    destruct cur; [contradiction | reflexivity].
  - cbn [Py.split_ws_aux]. rewrite Hc. rewrite IH by discriminate.
    cbn [rev]. now rewrite <- app_assoc.
Qed.

Lemma split_ws_clean (s : Py.str) :
  Forall (fun c => Py.isspace c = false) s -> s <> [] -> Py.split_ws s = [s].
Proof. intros Hall Hne. unfold Py.split_ws. now rewrite split_ws_aux_clean. Qed.

Lemma join_app_sep (sep : Py.str) (rows : list Py.str) :
  rows <> [] ->
  concat (map (fun r => r ++ sep) rows) = Py.join sep rows ++ sep.
Proof.
  intros Hne. induction rows as [| r rows IH]; [contradiction |].
  destruct rows as [| r' rows]; [cbn; now rewrite app_nil_r |].
  change (Py.join sep (r :: r' :: rows))
    with (r ++ sep ++ Py.join sep (r' :: rows)).
  cbn [map concat]. cbn [map concat] in IH. rewrite IH by discriminate.
  now rewrite <- !app_assoc.
Qed.

(** *** One rank *)

Lemma fen_step_inside (fen : Py.str) (c sq : Z) (p : option chess.Piece) :
  on_file_a sq = false -> 0 <= c ->
  fen_step (fen, c) (sq, p)
  = match p with
    | Some p => (fen ++ flush c ++ [chess.symbol p], 0)
    | None => (fen, c + 1)
    end.
Proof.
  intros H Hc. unfold fen_step, on_file_a in *. cbn [fst snd]. rewrite H.
  destruct p as [p |]; [| reflexivity].
  unfold handle_empties, flush. cbn [fst snd].
  destruct (Z.ltb_spec 0 c); cbn [fst snd].
  - now rewrite <- app_assoc.
  - assert (c = 0) as -> by lia. reflexivity.
Qed.

Lemma fen_step_edge (fen : Py.str) (c sq : Z) (p : option chess.Piece) :
  on_file_a sq = true -> 0 <= c ->
  fen_step (fen, c) (sq, p) = (fen ++ rank_text c [p] ++ Py.lit "/", 0).
Proof.
  intros H Hc. unfold fen_step, on_file_a in *. cbn [fst snd]. rewrite H.
  destruct p as [p |]; cbn [rank_text].
  - unfold handle_empties, flush. cbn [fst snd].
    destruct (Z.ltb_spec 0 c); cbn [fst snd].
    + cbn. now rewrite <- !app_assoc.
    + assert (c = 0) as -> by lia. cbn. now rewrite <- !app_assoc.
  - unfold handle_empties, flush. cbn [fst snd].
    destruct (Z.ltb_spec 0 (c + 1)); [| lia]. cbn [fst snd].
    now rewrite <- app_assoc.
Qed.

Lemma fen_rank (ins : list item) (last : item) (fen : Py.str) (c : Z) :
  Forall (fun it => on_file_a (fst it) = false) ins ->
  on_file_a (fst last) = true -> 0 <= c ->
  fold_left fen_step (ins ++ [last]) (fen, c)
  = (fen ++ rank_text c (map snd (ins ++ [last])) ++ Py.lit "/", 0).
Proof.
  intros Hin Hlast. revert fen c.
  induction Hin as [| [sq p] ins Hsq Hin IH]; intros fen c Hc.
  - destruct last as [sq p]. cbn [app fold_left map snd].
    now apply fen_step_edge.
  - cbn [app fold_left map snd].
    rewrite fen_step_inside by (exact Hsq || exact Hc).
    destruct p as [p |]; cbn [rank_text].
    + rewrite IH by lia. now rewrite <- !app_assoc.
    + now rewrite IH by lia.
Qed.

Lemma symbol_facts (p : chess.Piece) :
  plain (chess.symbol p)
  /\ expand_digit (chess.symbol p) = [chess.symbol p]
  /\ chess.symbol p <> "1"%char
  /\ chess.from_symbol [chess.symbol p] = inr p.
Proof. destruct p as [[] []]; vm_compute; repeat split; congruence. Qed.

Lemma digit_facts (c : Z) :
  1 <= c <= 9 ->
  exists d, Py.str_of_int c = [d] /\ plain d
            /\ expand_digit d = repeat "1"%char (Z.to_nat c).
Proof.
  intros H.
  assert (Hc : exists k : nat, c = Z.of_nat k + 1 /\ (k < 9)%nat).
  { exists (Z.to_nat (c - 1)). lia. }
  destruct Hc as (k & -> & Hk).
  do 9 (destruct k as [| k];
        [eexists; split; [vm_compute; reflexivity |];
         vm_compute; repeat split; congruence |]).
  lia.
Qed.

Lemma expand_app (a b : Py.str) : expand (a ++ b) = expand a ++ expand b.
Proof. unfold expand. now rewrite map_app, concat_app. Qed.

Lemma flush_facts (c : Z) :
  0 <= c <= 9 ->
  Forall plain (flush c) /\ expand (flush c) = repeat "1"%char (Z.to_nat c).
Proof.
  intros H. unfold flush. destruct (Z.ltb_spec 0 c).
  - destruct (digit_facts c ltac:(lia)) as (d & -> & Hd & He).
    split; [repeat constructor; apply Hd |].
    unfold expand. cbn [map concat]. now rewrite app_nil_r.
  - assert (c = 0) as -> by lia. split; [constructor | reflexivity].
Qed.

Lemma rank_text_facts (ps : list (option chess.Piece)) (c : Z) :
  0 <= c -> c + Z.of_nat (length ps) <= 9 ->
  Forall plain (rank_text c ps)
  /\ expand (rank_text c ps)
     = repeat "1"%char (Z.to_nat c) ++ map square_char ps.
Proof.
  revert c. induction ps as [| [p |] ps IH]; intros c Hc Hlen;
    cbn [rank_text length map] in *.
  - rewrite app_nil_r. apply flush_facts. lia.
  - destruct (flush_facts c ltac:(lia)) as [Hf He].
    destruct (IH 0 ltac:(lia) ltac:(lia)) as [IH1 IH2].
    destruct (symbol_facts p) as (Hp & Hx & _).
    split.
    + apply Forall_app. split; [exact Hf |].
      constructor; [exact Hp | exact IH1].
    + rewrite !expand_app, He, IH2. unfold expand at 1. cbn [map concat].
      rewrite Hx. reflexivity.
  - destruct (IH (c + 1) ltac:(lia) ltac:(lia)) as [IH1 IH2].
    split; [exact IH1 |]. rewrite IH2.
    replace (Z.to_nat (c + 1)) with (Z.to_nat c + 1)%nat by lia.
    rewrite repeat_app. now rewrite <- app_assoc.
Qed.

Lemma expand_digit_rev (ch : ascii) : rev (expand_digit ch) = expand_digit ch.
Proof.
  unfold expand_digit. destruct (_ && _); [| reflexivity].
  unfold Py.repeat_char. apply rev_repeat.
Qed.

Lemma expand_rev (s : Py.str) : expand (rev s) = rev (expand s).
Proof.
  induction s as [| ch s IH]; [reflexivity |].
  cbn [rev]. rewrite expand_app, IH. unfold expand at 2 3. cbn [map concat].
  rewrite app_nil_r, rev_app_distr, expand_digit_rev. reflexivity.
Qed.

Lemma expand_join (rows : list Py.str) :
  expand (Py.join (Py.lit "/") rows) = Py.join (Py.lit "/") (map expand rows).
Proof.
  induction rows as [| r rows IH]; [reflexivity |].
  destruct rows as [| r' rows]; [reflexivity |].
  change (Py.join (Py.lit "/") (r :: r' :: rows))
    with (r ++ Py.lit "/" ++ Py.join (Py.lit "/") (r' :: rows)).
  rewrite !expand_app, IH. reflexivity.
Qed.

Lemma plain_no_sep (s : Py.str) : Forall plain s -> "/"%char ∉ s.
Proof.
  intros H Hin. rewrite Forall_forall in H. destruct (H _ Hin) as [Hne _].
  congruence.
Qed.

Lemma square_char_plain (p : option chess.Piece) : plain (square_char p).
Proof.
  destruct p as [p |]; [apply symbol_facts |].
  split; [discriminate | reflexivity].
Qed.

Lemma rev_concat_rows {I A} (f : I -> list A) (rows : list I) :
  concat (rev (map (fun r => rev (f r)) rows)) = rev (concat (map f rows)).
Proof.
  induction rows as [| r rows IH]; [reflexivity |].
  cbn [map rev concat]. rewrite concat_app, IH. cbn [concat].
  now rewrite app_nil_r, rev_app_distr.
Qed.

Lemma lookup_rev {A} (l : list A) (k : nat) (x : A) :
  l !! k = Some x -> rev l !! (length l - 1 - k)%nat = Some x.
Proof.
  intros H. pose proof (lookup_lt_Some _ _ _ H) as Hk.
  destruct (rev l !! (length l - 1 - k)%nat) as [y |] eqn:Hy.
  - f_equal. apply (nth_lookup_Some _ _ x) in Hy.
    rewrite rev_nth in Hy by lia.
    replace (length l - S (length l - 1 - k))%nat with k in Hy by lia.
    rewrite (nth_lookup_Some _ _ x _ H) in Hy. congruence.
  - apply lookup_ge_None in Hy. rewrite length_rev in Hy. lia.
Qed.

Lemma join_no_space (rows : list Py.str) :
  Forall (Forall plain) rows ->
  Forall (fun c => Py.isspace c = false) (Py.join (Py.lit "/") rows).
Proof.
  induction 1 as [| r rows Hr Hall IH]; [constructor |].
  assert (Hr' : Forall (fun c => Py.isspace c = false) r).
  { eapply Forall_impl; [exact Hr |]. intros c Hc. apply Hc. }
  destruct rows as [| r' rows]; [exact Hr' |].
  change (Py.join (Py.lit "/") (r :: r' :: rows))
    with (r ++ "/"%char :: Py.join (Py.lit "/") (r' :: rows)).
  apply Forall_app. split; [exact Hr' |]. constructor; [reflexivity | exact IH].
Qed.

Lemma compare_all_equal (target : Py.str) (items : list item)
    (acc : list difference) :
  Forall (fun it => Py.index target (Z.to_nat (fst it))
                    = inr (square_char (snd it))) items ->
  fold_left (compare_step target) items (inr acc) = inr acc.
Proof.
  induction 1 as [| [sq p] items Hit _ IH]; [reflexivity |].
  cbn [fold_left]. unfold compare_step at 2. cbn [fst snd] in *. rewrite Hit.
  destruct p as [p |]; cbn [square_char].
  - destruct (symbol_facts p) as (_ & _ & Hne & Hsym).
    rewrite (bool_decide_eq_true_2 _ Hne), Hsym.
    rewrite (bool_decide_eq_false_2 (Some p <> Some p)) by tauto. exact IH.
  - rewrite (bool_decide_eq_false_2 ("1"%char <> "1"%char)) by tauto.
    rewrite (bool_decide_eq_false_2 (None <> None)) by tauto. exact IH.
Qed.

(** *** The whole board *)

Lemma board_items_ranks (board : buffer) :
  (board_items board) = concat (map (rank_items board) (seq 0 8)).
Proof. reflexivity. Qed.

Lemma board_items_squares (board : buffer) :
  map fst (board_items board) = map (fun k => 63 - Z.of_nat k) (seq 0 64).
Proof. reflexivity. Qed.

Lemma rank_items_fold (board : buffer) (r : nat) (fen : Py.str) :
  (r < 8)%nat ->
  fold_left fen_step (rank_items board r) (fen, 0)
  = (fen ++ rank_row board r ++ Py.lit "/", 0).
Proof.
  intros Hr.
  do 8 (destruct r as [| r];
        [apply (fen_rank [_; _; _; _; _; _; _] _);
         [repeat constructor | reflexivity | lia] |]).
  lia.
Qed.

Lemma ranks_fold (board : buffer) (rs : list nat) (fen : Py.str) :
  Forall (fun r => (r < 8)%nat) rs ->
  fold_left fen_step (concat (map (rank_items board) rs)) (fen, 0)
  = (fen ++ concat (map (fun r => rank_row board r ++ Py.lit "/") rs), 0).
Proof.
  intros Hall. revert fen. induction Hall as [| r rs Hr _ IH]; intros fen.
  - cbn. now rewrite app_nil_r.
  - cbn [map concat]. rewrite fold_left_app, rank_items_fold by exact Hr.
    rewrite IH. now rewrite <- !app_assoc.
Qed.

Lemma rank_row_facts (board : buffer) (r : nat) :
  Forall plain (rank_row board r)
  /\ expand (rank_row board r)
     = map square_char (map snd (rank_items board r)).
Proof.
  unfold rank_row.
  destruct (rank_text_facts (map snd (rank_items board r)) 0 ltac:(lia))
    as [H1 H2].
  { unfold rank_items. cbn. lia. }
  split; [exact H1 | exact H2].
Qed.

Lemma raw_fen_ranks (board : buffer) :
  raw_fen (board_items board)
  = Py.join (Py.lit "/") (map (rank_row board) (seq 0 8)) ++ Py.lit "/".
Proof.
  unfold raw_fen. rewrite board_items_ranks, ranks_fold.
  2: { apply Forall_forall. intros r Hr. apply elem_of_seq in Hr. lia. }
  cbn [fst app]. rewrite <- join_app_sep by discriminate.
  now rewrite map_map.
Qed.

Lemma mirrored_fen (board : buffer) :
  mirror_rows (raw_fen (board_items board))
  = Py.join (Py.lit "/") (map (fun r => rev (rank_row board r)) (seq 0 8)).
Proof.
  unfold mirror_rows. rewrite raw_fen_ranks.
  unfold Py.drop_last. change (Py.lit "/") with ["/"%char].
  rewrite removelast_last, split_on_join, map_map;
    [reflexivity | discriminate |].
  apply Forall_map, Forall_forall. intros r _. cbv beta.
  apply plain_no_sep, rank_row_facts.
Qed.

Lemma converted_fen (board : buffer) :
  convert_fen (mirror_rows (raw_fen (board_items board)))
  = inr (Py.join (Py.lit "/")
           (map (fun r =>
                   rev (map square_char (map snd (rank_items board r))))
                (seq 0 8))).
Proof.
  rewrite mirrored_fen. unfold convert_fen.
  rewrite split_ws_clean.
  2: { apply join_no_space, Forall_map, Forall_forall. intros r _. cbv beta.
       apply Forall_rev, rank_row_facts. }
  2: { cbn [seq map Py.join].
       destruct (rev (rank_row board 0)); discriminate. }
  cbn [Py.index lookup list_lookup]. f_equal.
  fold (expand (Py.join (Py.lit "/")
                  (map (fun r => rev (rank_row board r)) (seq 0 8)))).
  rewrite expand_join, map_map. f_equal.
  apply map_ext. intros r. rewrite expand_rev. f_equal. apply rank_row_facts.
Qed.

Lemma target_squares (board : buffer) :
  concat (rev (Py.split_on "/"
                 (Py.join (Py.lit "/")
                    (map (fun r =>
                            rev (map square_char
                                   (map snd (rank_items board r))))
                         (seq 0 8)))))
  = rev (map square_char (map snd (board_items board))).
Proof.
  change (Py.lit "/") with ["/"%char].
  rewrite split_on_join; [| discriminate |].
  2: { apply Forall_map, Forall_forall. intros r _. cbv beta.
       apply plain_no_sep, Forall_rev, Forall_map, Forall_forall.
       intros p _. apply square_char_plain. }
  rewrite (rev_concat_rows
             (fun r => map square_char (map snd (rank_items board r)))).
  rewrite board_items_ranks, !concat_map, !map_map. reflexivity.
Qed.

Lemma target_matches (board : buffer) :
  Forall (fun it =>
            Py.index (rev (map square_char (map snd (board_items board))))
                     (Z.to_nat (fst it))
            = inr (square_char (snd it)))
         (board_items board).
Proof.
  apply Forall_forall. intros it Hin.
  apply list_elem_of_lookup in Hin as [k Hk].
  assert (Hlen : length (board_items board) = 64%nat) by reflexivity.
  pose proof (lookup_lt_Some _ _ _ Hk) as Hlt. change (k < 64)%nat in Hlt.
  assert (Hsq : fst it = 63 - Z.of_nat k).
  { assert (H1 : map fst (board_items board) !! k = Some (fst it)).
    { change (map fst (board_items board)) with (fst <$> (board_items board)).
      rewrite list_lookup_fmap, Hk. reflexivity. }
    rewrite board_items_squares in H1.
    change (map (fun k => 63 - Z.of_nat k) (seq 0 64))
      with ((fun k => 63 - Z.of_nat k) <$> seq 0 64) in H1.
    rewrite list_lookup_fmap, lookup_seq_lt in H1 by lia.
    cbn in H1. injection H1 as <-. lia. }
  assert (H2 : map square_char (map snd (board_items board)) !! k
               = Some (square_char (snd it))).
  { change (map square_char (map snd (board_items board)))
      with (square_char <$> (snd <$> (board_items board))).
    rewrite !list_lookup_fmap, Hk. reflexivity. }
  apply lookup_rev in H2.
  change (length (map square_char (map snd (board_items board))))
    with 64%nat in H2.
  unfold Py.index. rewrite Hsq.
  replace (Z.to_nat (63 - Z.of_nat k)) with (64 - 1 - k)%nat by lia.
  now rewrite H2.
Qed.

(** C4: for a session whose board buffer has 32 bytes, all nibbles with a
    piece-symbol mapping, [board_state_as_fen] returns a notation string
    (and stores it in [cur_fen]), and comparing the board with that string
    returns the empty list of differences. *)
Theorem fen_round_trip (s : ChessnutAir) :
  length (elems (board_state s)) = 32%nat ->
  (forall b, b ∈ elems (board_state s) ->
     mapped (b mod 16) /\ mapped (b / 16)) ->
  exists fen,
    board_state_as_fen s = (inr fen, set_cur_fen fen s)
    /\ compare_board_state_to_fen fen (set_cur_fen fen s) = inr [].
Proof.
  intros Hlen Hmap.
  pose proof (decoder_mapped (board_state s) Hlen Hmap) as Hdec.
  exists (mirror_rows (raw_fen (board_items (board_state s)))).
  split.
  - unfold board_state_as_fen. rewrite Hdec. reflexivity.
  - unfold compare_board_state_to_fen. rewrite converted_fen, target_squares.
    cbn [board_state set_cur_fen]. rewrite Hdec.
    rewrite compare_all_equal by apply target_matches. reflexivity.
Qed.

(** ** More on the LED encoder *)

Lemma change_leds_session (req : led_request) (s : ChessnutAir) :
  (change_leds req s).1.2 = s.
Proof.
  destruct req as [| names | squares]; unfold change_leds; [reflexivity | |];
    unfold bind;
    match goal with
    | |- context [lift ?r s] => destruct r as [e | arr]
    end; cbn [lift raise ret]; try reflexivity;
    rewrite write_gatt_char_run; destruct (_connection s); reflexivity.
Qed.

Lemma blink_tick_session (sleep_time : Q) (s : ChessnutAir) :
  (blink_tick sleep_time s).1.2 = set_tick (negb (tick s)) s.
Proof.
  unfold blink_tick, bind at 1, modify. unfold bind at 1, get.
  unfold bind. cbn [tick set_tick].
  set (req := if negb (tick s) then _ else _).
  assert (Hreq : forall s0, (req s0).1.2 = s0).
  { intros s0. unfold req.
    destruct (negb (tick s)); apply change_leds_session. }
  specialize (Hreq (set_tick (negb (tick s)) s)).
  destruct (req _) as [[[e | []] s1] t1]; cbn [fst snd] in *; [exact Hreq |].
  destruct (Qltb 0 sleep_time); cbn; exact Hreq.
Qed.

Lemma play_animation_session (frames : list (list Py.str)) (sleep_time : Q)
    (s : ChessnutAir) :
  (play_animation frames sleep_time s).1.2 = s.
Proof.
  unfold play_animation. induction frames as [| frame frames IH];
    [reflexivity |].
  cbn [for_each]. unfold bind at 1 2.
  destruct (parse_all frame) as [e | squares]; cbn [lift raise ret];
    [reflexivity |].
  unfold bind at 1.
  pose proof (change_leds_session
                (ReqSquareSet (chess.SquareSet_of_squares squares)) s) as Hs.
  destruct (change_leds _ s) as [[[e | []] s1] t1]; cbn [fst snd] in Hs;
    subst s1; [reflexivity |].
  cbn [emit].
  destruct (for_each frames _ s) as [[r s2] t2]. cbn [fst snd] in *.
  exact IH.
Qed.

(** X1: the LED operations do not touch the session: [change_leds] and
    [play_animation] leave it exactly as it was and [blink_tick] changes
    its [tick] only, whether they return or raise. *)
Theorem led_operations_keep_session :
  (forall req s, (change_leds req s).1.2 = s)
  /\ (forall sleep_time s,
        (blink_tick sleep_time s).1.2 = set_tick (negb (tick s)) s)
  /\ (forall frames sleep_time s,
        (play_animation frames sleep_time s).1.2 = s).
Proof.
  split; [exact change_leds_session |].
  split; [exact blink_tick_session | exact play_animation_session].
Qed.

(** *** Names that cannot be lit *)

Lemma light_pos_take (arr : exn + list Z) (pos : Py.str) :
  light_pos arr pos = light_pos arr (take 2 pos).
Proof.
  destruct arr as [e | arr]; [reflexivity |].
  destruct pos as [| a [| b rest]]; reflexivity.
Qed.

Lemma light_pos_length (arr arr' : list Z) (pos : Py.str) :
  light_pos (inr arr) pos = inr arr' -> length arr' = length arr.
Proof.
  unfold light_pos, and_then.
  destruct (Py.index pos 1) as [? | digit]; [discriminate |].
  destruct (Py.getitem conv_number digit) as [? | k]; [discriminate |].
  destruct (Py.index arr (Z.to_nat k)) as [? | cur]; [discriminate |].
  destruct (Py.index pos 0) as [? | letter]; [discriminate |].
  destruct (Py.getitem conv_letter letter) as [? | bit]; [discriminate |].
  intros [= <-]. apply length_insert.
Qed.

Lemma conv_number_inv (digit : ascii) (k : Z) :
  conv_number !! digit = Some k ->
  exists rank, 0 <= rank < 8 /\ digit = Py.chr (49 + rank).
Proof.
  intros H. apply elem_of_list_to_map_2 in H.
  repeat (apply elem_of_cons in H as [H | H];
          [injection H as -> _;
           match goal with
           | |- exists rank, _ /\ ?c = _ => exists (Py.code c - 49)
           end; vm_compute; repeat split; congruence |]).
  now apply elem_of_nil in H.
Qed.

Lemma conv_letter_inv (letter : ascii) (bit : Z) :
  conv_letter !! letter = Some bit ->
  exists file, 0 <= file < 8 /\ letter = Py.chr (97 + file).
Proof.
  intros H. apply elem_of_list_to_map_2 in H.
  repeat (apply elem_of_cons in H as [H | H];
          [injection H as -> _;
           match goal with
           | |- exists file, _ /\ ?c = _ => exists (Py.code c - 97)
           end; vm_compute; repeat split; congruence |]).
  now apply elem_of_nil in H.
Qed.

(** A name lights an LED only if it starts with a file letter and a rank
    digit. *)
Lemma light_pos_lightable (arr arr' : list Z) (pos : Py.str) :
  light_pos (inr arr) pos = inr arr' -> lightable pos.
Proof.
  unfold light_pos, and_then, Py.index, Py.getitem.
  destruct pos as [| a [| b rest]]; cbn [lookup list_lookup];
    [discriminate | discriminate |].
  destruct (conv_number !! b) as [k |] eqn:Hb; [| discriminate].
  destruct (arr !! Z.to_nat k) as [cur |]; [| discriminate].
  destruct (conv_letter !! a) as [bit |] eqn:Ha; [| discriminate].
  intros _.
  destruct (conv_number_inv b k Hb) as (rank & Hr & ->).
  destruct (conv_letter_inv a bit Ha) as (file & Hf & ->).
  exists file, rank, rest. auto.
Qed.

Lemma index_error {A} (l : list A) (i : nat) (e : exn) :
  Py.index l i = inl e -> e = IndexError.
Proof. unfold Py.index. destruct (l !! i); [discriminate | congruence]. Qed.

Lemma getitem_error {V} (d : gmap ascii V) (k : ascii) (e : exn) :
  Py.getitem d k = inl e -> e = KeyError.
Proof. unfold Py.getitem. destruct (d !! k); [discriminate | congruence]. Qed.

Lemma light_pos_error (arr : list Z) (pos : Py.str) (e : exn) :
  light_pos (inr arr) pos = inl e -> e = KeyError \/ e = IndexError.
Proof.
  unfold light_pos, and_then.
  destruct (Py.index pos 1) as [? | digit] eqn:H1;
    [intros [= <-]; right; eapply index_error; eauto |].
  destruct (Py.getitem conv_number digit) as [? | k] eqn:H2;
    [intros [= <-]; left; eapply getitem_error; eauto |].
  destruct (Py.index arr (Z.to_nat k)) as [? | cur] eqn:H3;
    [intros [= <-]; right; eapply index_error; eauto |].
  destruct (Py.index pos 0) as [? | letter] eqn:H4;
    [intros [= <-]; right; eapply index_error; eauto |].
  destruct (Py.getitem conv_letter letter) as [? | bit] eqn:H5;
    [intros [= <-]; left; eapply getitem_error; eauto | discriminate].
Qed.

Lemma light_failed (names : list Py.str) (e : exn) :
  fold_left light_pos names (inl e) = inl e.
Proof. induction names as [| pos names IH]; [reflexivity | exact IH]. Qed.

Lemma light_some_bad (names : list Py.str) :
  Exists (fun pos => ~ lightable pos) names ->
  forall arr, length arr = 8%nat ->
  exists e, fold_left light_pos names (inr arr) = inl e
            /\ (e = KeyError \/ e = IndexError).
Proof.
  induction 1 as [pos names Hbad | pos names _ IH]; intros arr Hlen;
    cbn [fold_left];
    destruct (light_pos (inr arr) pos) as [e | arr'] eqn:Hpos.
  - exists e. split; [apply light_failed | eapply light_pos_error; eauto].
  - exfalso. apply Hbad. eapply light_pos_lightable; eauto.
  - exists e. split; [apply light_failed | eapply light_pos_error; eauto].
  - apply IH. rewrite (light_pos_length _ _ _ Hpos). exact Hlen.
Qed.

(** X2: a list request is encoded from the first two characters of each
    name only; and when one of the names does not start with a file
    letter a-h and a rank digit 1-8, [change_leds] raises [KeyError] or
    [IndexError] and writes nothing, connected or not. *)
Theorem change_leds_unlightable_name (names : list Py.str)
    (s : ChessnutAir) :
  change_leds (ReqList names) s = change_leds (ReqList (map (take 2) names)) s
  /\ (Exists (fun pos => ~ lightable pos) names ->
      exists e,
        change_leds (ReqList names) s = (inl e, s, [])
        /\ (e = KeyError \/ e = IndexError)).
Proof.
  split.
  - unfold change_leds. f_equal. f_equal.
    generalize (@inr exn _ (repeat 0 8)).
    induction names as [| pos names IH]; intros acc; [reflexivity |].
    cbn [map fold_left]. rewrite <- light_pos_take. apply IH.
  - intros Hbad.
    destruct (light_some_bad names Hbad (repeat 0 8) eq_refl)
      as (e & Hfold & He).
    exists e. split; [| exact He].
    unfold change_leds, bind. rewrite Hfold. reflexivity.
Qed.

(** *** Frames are determined by their LEDs *)

Lemma byte_ext (a b : Z) :
  0 <= a < 256 -> 0 <= b < 256 ->
  (forall j, 0 <= j < 8 -> Z.testbit a j = Z.testbit b j) -> a = b.
Proof.
  intros Ha Hb H. apply Z.bits_inj'. intros n Hn.
  destruct (Z.ltb_spec n 8) as [Hlt | Hge]; [apply H; lia |].
  rewrite <- (Z.mod_small a (2 ^ 8)), <- (Z.mod_small b (2 ^ 8))
    by (change (2 ^ 8) with 256; lia).
  now rewrite !Z.mod_pow2_bits_high by lia.
Qed.

Lemma frame_ext (a b : list Z) :
  is_frame a -> is_frame b ->
  (forall file rank, 0 <= file < 8 -> 0 <= rank < 8 ->
     led a file rank = led b file rank) ->
  a = b.
Proof.
  intros [La Ha] [Lb Hb] H.
  apply (nth_ext a b 0 0); [congruence |].
  intros k Hk. rewrite La in Hk.
  rewrite Forall_forall in Ha, Hb.
  apply byte_ext.
  - apply Ha, list_elem_of_In, nth_In. lia.
  - apply Hb, list_elem_of_In, nth_In. lia.
  - intros j Hj. specialize (H (7 - j) (7 - Z.of_nat k) ltac:(lia) ltac:(lia)).
    unfold led in H.
    replace (Z.to_nat (7 - (7 - Z.of_nat k))) with k in H by lia.
    replace (7 - (7 - j)) with j in H by lia. exact H.
Qed.

(** *** Square sets built from squares and from names *)

Lemma squares_mask_bit (l : list Z) (acc i : Z) :
  Forall (fun sq => 0 <= sq) l -> 0 <= i ->
  Z.testbit (fold_left (fun m sq => Z.lor m (Z.shiftl 1 sq)) l acc) i
  = Z.testbit acc i || bool_decide (i ∈ l).
Proof.
  intros Hall Hi. revert acc. induction Hall as [| sq l Hsq _ IH]; intros acc.
  - cbn. rewrite bool_decide_eq_false_2 by apply not_elem_of_nil.
    now rewrite orb_false_r.
  - cbn [fold_left]. rewrite IH, Z.lor_spec, Z.shiftl_1_l.
    rewrite Z.pow2_bits_eqb by lia. rewrite <- orb_assoc. f_equal.
    destruct (Z.eqb_spec sq i) as [-> | Hne].
    + cbn. symmetry. apply bool_decide_eq_true_2, list_elem_of_here.
    + cbn. apply bool_decide_ext. rewrite elem_of_cons.
      split; [auto | intros [? | ?]; [congruence | assumption]].
Qed.

Lemma contains_of_squares (l : list Z) (sq : Z) :
  Forall (fun x => 0 <= x) l -> 0 <= sq < 64 ->
  chess.contains (chess.SquareSet_of_squares l) sq = bool_decide (sq ∈ l).
Proof.
  intros Hall Hsq. rewrite contains_testbit by lia.
  unfold chess.SquareSet_of_squares, chess.SquareSet_of_int. cbn [chess.mask].
  rewrite Z.land_spec, squares_mask_bit by (assumption || lia).
  change chess.BB_ALL with (Z.ones 64). rewrite Z.ones_spec_low by lia.
  rewrite Z.bits_0, andb_true_r. reflexivity.
Qed.

Lemma parse_square_name (file rank : Z) :
  0 <= file < 8 -> 0 <= rank < 8 ->
  parse_square (square_name file rank) = inr (chess.square file rank).
Proof.
  intros Hf Hr.
  destruct (small_nat_cases file 8 Hf) as (f & -> & Hf').
  destruct (small_nat_cases rank 8 Hr) as (r & -> & Hr').
  do 8 (destruct f as [| f];
        [do 8 (destruct r as [| r]; [vm_compute; reflexivity |]); lia |]).
  lia.
Qed.

Lemma list_index_inv (x : Py.str) (l : list Py.str) (k : Z) :
  list_index x l = inr k ->
  0 <= k < Z.of_nat (length l) /\ l !! Z.to_nat k = Some x.
Proof.
  revert k. induction l as [| y l IH]; intros k; cbn [list_index];
    [discriminate |].
  destruct (decide (x = y)) as [-> | Hne].
  - rewrite bool_decide_eq_true_2 by reflexivity. intros [= <-].
    cbn [length]. split; [lia | reflexivity].
  - rewrite bool_decide_eq_false_2 by exact Hne.
    destruct (list_index x l) as [e | k']; [discriminate |].
    intros [= <-]. destruct (IH k' eq_refl) as [Hk Hl]. cbn [length].
    split; [lia |].
    replace (Z.to_nat (k' + 1)) with (S (Z.to_nat k')) by lia. exact Hl.
Qed.

Lemma square_names_lookup (k : nat) (name : Py.str) :
  SQUARE_NAMES !! k = Some name ->
  name = square_name (Z.of_nat k mod 8) (Z.of_nat k / 8) /\ (k < 64)%nat.
Proof.
  intros H. assert (Hk : (k < 64)%nat).
  { apply lookup_lt_Some in H. exact H. }
  split; [| exact Hk]. revert H.
  do 64 (destruct k as [| k]; [intros [= <-]; vm_compute; reflexivity |]).
  lia.
Qed.

(** The names that parse are the 64 square names. *)
Lemma parse_square_inv (name : Py.str) (sq : Z) :
  parse_square name = inr sq -> 0 <= sq < 64 /\ is_square_name name.
Proof.
  intros H. apply list_index_inv in H as [Hk Hl].
  change (Z.of_nat (length SQUARE_NAMES)) with 64 in Hk.
  split; [exact Hk |].
  apply square_names_lookup in Hl as [-> _].
  rewrite Z2Nat.id by lia.
  exists (sq mod 8), (sq / 8). split; [| split; [| reflexivity]].
  - apply Z.mod_pos_bound. lia.
  - split; [apply Z.div_pos; lia | apply Z.div_lt_upper_bound; lia].
Qed.

Lemma parse_error (name : Py.str) (e : exn) :
  parse_square name = inl e -> e = ValueError.
Proof.
  unfold parse_square. generalize SQUARE_NAMES. intros l. revert e.
  induction l as [| y l IH]; intros e; cbn [list_index]; [congruence |].
  destruct (bool_decide (name = y)); [discriminate |].
  destruct (list_index name l) as [e' | k]; [| discriminate].
  intros [= <-]. now apply IH.
Qed.

(** Parsing a frame of square names gives their squares. *)
Lemma parse_all_names (frame : list Py.str) :
  Forall is_square_name frame ->
  exists squares,
    parse_all frame = inr squares
    /\ Forall (fun sq => 0 <= sq < 64) squares
    /\ forall file rank, 0 <= file < 8 -> 0 <= rank < 8 ->
         (chess.square file rank ∈ squares <-> square_name file rank ∈ frame).
Proof.
  induction 1 as [| name frame (f & r & Hf & Hr & ->) _ IH].
  - exists []. split; [reflexivity |]. split; [constructor |].
    intros file rank _ _. rewrite !elem_of_nil. tauto.
  - destruct IH as (squares & Hparse & Hrange & Hmem).
    exists (chess.square f r :: squares).
    split; [| split].
    + cbn [parse_all]. rewrite parse_square_name, Hparse by lia. reflexivity.
    + constructor; [unfold chess.square; lia | exact Hrange].
    + intros file rank Hfile Hrank. rewrite !elem_of_cons, Hmem by lia.
      split; (intros [Heq | Hin]; [left | right; exact Hin]).
      * unfold chess.square in Heq.
        assert (file = f /\ rank = r) as [-> ->] by lia. reflexivity.
      * apply square_name_inj in Heq as [-> ->]; auto.
Qed.

(** A frame with a name that is not a square name does not parse. *)
Lemma parse_all_bad (frame : list Py.str) :
  Exists (fun name => ~ is_square_name name) frame ->
  parse_all frame = inl ValueError.
Proof.
  induction 1 as [name frame Hbad | name frame _ IH]; cbn [parse_all];
    destruct (parse_square name) as [e | sq] eqn:Hname; cbn [and_then].
  - f_equal. eapply parse_error; eauto.
  - exfalso. apply Hbad. eapply parse_square_inv; eauto.
  - f_equal. eapply parse_error; eauto.
  - rewrite IH. reflexivity.
Qed.

(** The frame of a list of square names, and the frame of the square set
    of the same names. *)
Lemma names_and_squares_frame (frame : list Py.str) :
  Forall is_square_name frame ->
  exists squares arr,
    parse_all frame = inr squares
    /\ fold_left light_pos frame (inr (repeat 0 8)) = inr arr
    /\ to_bytes_big 8
         (chess.flip_horizontal
            (chess.int (chess.SquareSet_of_squares squares))) = inr arr.
Proof.
  intros Hnames.
  destruct (parse_all_names frame Hnames) as (squares & Hparse & Hrange & Hmem).
  destruct (light_all frame Hnames (repeat 0 8))
    as (arr & Hfold & Hfr & Hled).
  { split; [reflexivity |]. repeat constructor; lia. }
  exists squares, arr. split; [exact Hparse |]. split; [exact Hfold |].
  rewrite to_bytes_flip. f_equal.
  apply frame_ext; [apply big_endian_frame | exact Hfr |].
  intros file rank Hf Hr.
  rewrite frame_led, Hled by lia.
  rewrite contains_of_squares.
  2: { eapply Forall_impl; [exact Hrange |]. cbv beta. intros; lia. }
  2: { unfold chess.square. lia. }
  assert (Hzero : led (repeat 0 8) file rank = false).
  { destruct (small_nat_cases rank 8 Hr) as (k & -> & Hk). unfold led.
    do 8 (destruct k as [| k];
          [vm_compute (nth _ _ _); now rewrite Z.bits_0 |]).
    lia. }
  rewrite Hzero. cbn [orb]. apply bool_decide_ext. now apply Hmem.
Qed.

(** X3: for square names the two shapes of a request agree:
    [change_leds] does the same with a list of names as with the
    [SquareSet] of the squares the names parse to, on every session. *)
Theorem change_leds_names_as_squares (frame : list Py.str)
    (s : ChessnutAir) :
  Forall is_square_name frame ->
  exists squares,
    parse_all frame = inr squares
    /\ change_leds (ReqSquareSet (chess.SquareSet_of_squares squares)) s
       = change_leds (ReqList frame) s.
Proof.
  intros Hnames.
  destruct (names_and_squares_frame frame Hnames)
    as (squares & arr & Hparse & Hfold & Hbytes).
  exists squares. split; [exact Hparse |].
  unfold change_leds. now rewrite Hfold, Hbytes.
Qed.

(** X4: the frame of a list request depends on which squares are named,
    not on their order or on repetitions: two lists of square names with
    the same members give the same command. *)
Theorem change_leds_names_as_set (names1 names2 : list Py.str)
    (s : ChessnutAir) :
  Forall is_square_name names1 -> Forall is_square_name names2 ->
  (forall name, name ∈ names1 <-> name ∈ names2) ->
  change_leds (ReqList names1) s = change_leds (ReqList names2) s.
Proof.
  intros H1 H2 Hsame.
  destruct (light_all names1 H1 (repeat 0 8)) as (a1 & Hf1 & Hfr1 & Hl1).
  { split; [reflexivity |]. repeat constructor; lia. }
  destruct (light_all names2 H2 (repeat 0 8)) as (a2 & Hf2 & Hfr2 & Hl2).
  { split; [reflexivity |]. repeat constructor; lia. }
  assert (a1 = a2) as ->.
  { apply frame_ext; [exact Hfr1 | exact Hfr2 |].
    intros file rank Hf Hr. rewrite Hl1, Hl2 by lia. f_equal.
    apply bool_decide_ext, Hsame. }
  unfold change_leds. now rewrite Hf1, Hf2.
Qed.

(** *** Animations *)

Lemma play_animation_step (frame : list Py.str)
    (frames : list (list Py.str)) (sleep_time : Q) (s : ChessnutAir) :
  is_Some (_connection s) -> Forall is_square_name frame ->
  play_animation (frame :: frames) sleep_time s
  = match play_animation frames sleep_time s with
    | (r, s', t) =>
        (r, s',
         (change_leds (ReqList frame) s).2 ++ [Sleep sleep_time] ++ t)
    end.
Proof.
  intros Hconn Hnames.
  destruct (names_and_squares_frame frame Hnames)
    as (squares & arr & Hparse & Hfold & Hbytes).
  destruct (change_leds_names frame s Hconn Hnames)
    as (frame' & Hrun & _ & _).
  assert (Hset : change_leds
                   (ReqSquareSet (chess.SquareSet_of_squares squares)) s
                 = change_leds (ReqList frame) s).
  { unfold change_leds. now rewrite Hfold, Hbytes. }
  unfold play_animation. cbn [for_each]. unfold bind at 1 2.
  rewrite Hparse. cbn [lift ret]. unfold bind at 1.
  rewrite Hset, Hrun. cbn [emit snd].
  destruct (for_each frames _ s) as [[r s'] t]. reflexivity.
Qed.

Lemma play_animation_bad_frame (frame : list Py.str)
    (frames : list (list Py.str)) (sleep_time : Q) (s : ChessnutAir) :
  Exists (fun name => ~ is_square_name name) frame ->
  play_animation (frame :: frames) sleep_time s = (inl ValueError, s, []).
Proof.
  intros Hbad. unfold play_animation. cbn [for_each]. unfold bind at 1 2.
  rewrite (parse_all_bad frame Hbad). reflexivity.
Qed.

(** X5: on a connected session [play_animation] shows its frames in
    order: for every frame of square names it writes the command
    [change_leds] writes for those names and then sleeps [sleep_time],
    leaving the session as it was; at the first frame holding something
    that is not a square name it raises [ValueError], having shown the
    frames before it and written nothing for that one. *)
Theorem play_animation_shows_frames (shown : list (list Py.str))
    (sleep_time : Q) (s : ChessnutAir) :
  is_Some (_connection s) -> Forall (Forall is_square_name) shown ->
  play_animation shown sleep_time s
  = (inr tt, s,
     flat_map (fun frame =>
                 (change_leds (ReqList frame) s).2 ++ [Sleep sleep_time])
              shown)
  /\ forall bad rest,
       Exists (fun name => ~ is_square_name name) bad ->
       play_animation (shown ++ bad :: rest) sleep_time s
       = (inl ValueError, s,
          flat_map (fun frame =>
                      (change_leds (ReqList frame) s).2 ++ [Sleep sleep_time])
                   shown).
Proof.
  intros Hconn Hall. induction Hall as [| frame shown Hframe _ [IH1 IH2]].
  - split; [reflexivity |]. intros bad rest Hbad.
    now apply play_animation_bad_frame.
  - split.
    + rewrite play_animation_step, IH1 by assumption.
      cbn [flat_map]. now rewrite <- app_assoc.
    + intros bad rest Hbad. cbn [app].
      rewrite play_animation_step, (IH2 bad rest Hbad) by assumption.
      cbn [flat_map]. now rewrite <- app_assoc.
Qed.

(** *** Reading a frame back *)

Lemma filter_ext_in {A} (P Q : A -> Prop) `{forall x, Decision (P x)}
    `{forall x, Decision (Q x)} (l : list A) :
  (forall x, x ∈ l -> (P x <-> Q x)) -> filter P l = filter Q l.
Proof.
  induction l as [| x l IH]; intros Hext; [reflexivity |].
  rewrite !filter_cons.
  assert (Hx : P x <-> Q x) by (apply Hext, list_elem_of_here).
  rewrite IH by (intros y Hy; apply Hext; now apply list_elem_of_further).
  destruct (decide (P x)), (decide (Q x)); tauto.
Qed.

Lemma square_of_file_rank (sq : Z) :
  0 <= sq < 64 ->
  0 <= chess.square_file sq < 8 /\ 0 <= chess.square_rank sq < 8
  /\ chess.square (chess.square_file sq) (chess.square_rank sq) = sq.
Proof.
  intros H. unfold chess.square_file, chess.square_rank, chess.square.
  change 7 with (Z.ones 3). rewrite Z.land_ones, Z.shiftr_div_pow2 by lia.
  change (2 ^ 3) with 8.
  pose proof (Z.mod_pos_bound sq 8 ltac:(lia)).
  pose proof (Z.div_mod sq 8 ltac:(lia)).
  assert (0 <= sq / 8 < 8).
  { split; [apply Z.div_pos; lia | apply Z.div_lt_upper_bound; lia]. }
  lia.
Qed.

(** X6: the frame [change_leds] writes for a square set can be read back:
    the squares whose LED the frame lights are the members of the set,
    in ascending order, and the set built from them is the set that was
    encoded. *)
Theorem frame_round_trip (squares : chess.SquareSet) (s : ChessnutAir) :
  is_Some (_connection s) ->
  exists frame,
    change_leds (ReqSquareSet squares) s
    = (inr tt, s, [WriteGatt (_led_command s ++ frame)])
    /\ lit_squares frame
       = filter (fun sq => chess.contains squares sq = true) (zrange 0 64)
    /\ chess.int (chess.SquareSet_of_squares (lit_squares frame))
       = chess.int squares.
Proof.
  intros Hconn.
  exists (big_endian 8 (chess.flip_horizontal (chess.int squares))).
  split; [now apply change_leds_squares |].
  assert (Hlit : lit_squares
                   (big_endian 8 (chess.flip_horizontal (chess.int squares)))
                 = filter (fun sq => chess.contains squares sq = true)
                          (zrange 0 64)).
  { unfold lit_squares. apply filter_ext_in. intros sq Hsq.
    apply zrange_elem in Hsq.
    destruct (square_of_file_rank sq ltac:(lia)) as (Hf & Hr & Heq).
    rewrite frame_led, Heq by assumption. reflexivity. }
  split; [exact Hlit |]. rewrite Hlit.
  apply Z.bits_inj'. intros i Hi.
  pose proof (mask_bounds squares) as Hm.
  unfold chess.SquareSet_of_squares, chess.SquareSet_of_int, chess.int.
  cbn [chess.mask].
  destruct (Z.ltb_spec i 64) as [Hlt | Hge].
  - rewrite Z.land_spec, squares_mask_bit.
    3: lia.
    2: { apply Forall_forall. intros x Hx.
         apply list_elem_of_filter in Hx as [_ Hx].
         apply zrange_elem in Hx. lia. }
    change chess.BB_ALL with (Z.ones 64). rewrite Z.ones_spec_low by lia.
    rewrite Z.bits_0, andb_true_r, <- contains_testbit by lia. cbn [orb].
    destruct (chess.contains squares i) eqn:Hc.
    + apply bool_decide_eq_true_2, list_elem_of_filter.
      split; [exact Hc | apply zrange_elem; lia].
    + apply bool_decide_eq_false_2. intros Hin.
      apply list_elem_of_filter in Hin as [Hin _]. congruence.
  - rewrite Z.land_spec.
    change chess.BB_ALL with (Z.ones 64). rewrite Z.ones_spec_high by lia.
    rewrite andb_false_r. symmetry.
    unfold chess.int in Hm.
    rewrite <- (Z.mod_small (chess.mask squares) (2 ^ 64)) by lia.
    apply Z.mod_pow2_bits_high. lia.
Qed.

(** *** Two ticks *)

Lemma blink_tick_run (sleep_time : Q) (s : ChessnutAir) :
  is_Some (_connection s) ->
  blink_tick sleep_time s
  = (inr tt, set_tick (negb (tick s)) s,
     WriteGatt
       (_led_command s
        ++ big_endian 8
             (chess.flip_horizontal
                (chess.int (if negb (tick s)
                            then chess.union (to_blink s) (to_light s)
                            else to_light s))))
     :: (if Qltb 0 sleep_time then [Sleep sleep_time] else [])).
Proof.
  intros Hconn.
  assert (Hconn' : is_Some (_connection (set_tick (negb (tick s)) s)))
    by exact Hconn.
  unfold blink_tick, bind, modify, get. cbn [tick set_tick].
  destruct (negb (tick s)); rewrite change_leds_squares by exact Hconn';
    destruct (Qltb 0 sleep_time); reflexivity.
Qed.

(** X7: on a connected session two ticks in a row put the [tick] flag, and
    with it the whole session, back where it was, and write both frames,
    the one of the steady squares alone and the one that adds the blinking
    squares; the second comes first when the flag was off. *)
Theorem blink_tick_twice (t1 t2 : Q) (s : ChessnutAir) :
  is_Some (_connection s) ->
  exists off on,
    (forall file rank, 0 <= file < 8 -> 0 <= rank < 8 ->
       led off file rank
       = chess.contains (to_light s) (chess.square file rank))
    /\ (forall file rank, 0 <= file < 8 -> 0 <= rank < 8 ->
          led on file rank
          = chess.contains (to_blink s) (chess.square file rank)
            || chess.contains (to_light s) (chess.square file rank))
    /\ bind (blink_tick t1) (fun _ => blink_tick t2) s
       = (inr tt, s,
          [WriteGatt (_led_command s ++ (if tick s then off else on))]
          ++ (if Qltb 0 t1 then [Sleep t1] else [])
          ++ [WriteGatt (_led_command s ++ (if tick s then on else off))]
          ++ (if Qltb 0 t2 then [Sleep t2] else [])).
Proof.
  intros Hconn.
  exists (big_endian 8 (chess.flip_horizontal (chess.int (to_light s)))),
    (big_endian 8 (chess.flip_horizontal
                     (chess.int (chess.union (to_blink s) (to_light s))))).
  split; [intros; now apply frame_led |].
  split.
  { intros file rank Hf Hr. rewrite frame_led by lia.
    apply union_contains. unfold chess.square. lia. }
  unfold bind. rewrite (blink_tick_run t1 s Hconn).
  rewrite (blink_tick_run t2 (set_tick (negb (tick s)) s)) by exact Hconn.
  cbn [tick set_tick _led_command to_blink to_light].
  rewrite negb_involutive.
  destruct s as [c b o l ch f tb tl tk]. cbn.
  destruct tk; cbn; destruct (Qltb 0 t1); reflexivity.
Qed.

(** *** A session that is not connected *)

Lemma change_leds_disconnected (req : led_request) (s : ChessnutAir) :
  _connection s = None -> well_formed req ->
  change_leds req s = (inl AttributeError, s, []).
Proof.
  intros Hnone Hreq. destruct req as [| names | squares]; [destruct Hreq | |].
  - destruct (names_and_squares_frame names Hreq) as (_ & arr & _ & Hfold & _).
    unfold change_leds, bind. rewrite Hfold. cbn [lift ret].
    rewrite write_gatt_char_run, Hnone. reflexivity.
  - unfold change_leds, bind. rewrite to_bytes_flip. cbn [lift ret].
    rewrite write_gatt_char_run, Hnone. reflexivity.
Qed.

Lemma blink_tick_disconnected (sleep_time : Q) (s : ChessnutAir) :
  _connection s = None ->
  blink_tick sleep_time s
  = (inl AttributeError, set_tick (negb (tick s)) s, []).
Proof.
  intros Hnone. unfold blink_tick, bind, modify, get. cbn [tick set_tick].
  destruct (negb (tick s));
    rewrite change_leds_disconnected by (exact Hnone || exact I);
    reflexivity.
Qed.

(** X8: without a connection every LED operation that has something to
    write raises [AttributeError] and writes nothing; [change_leds] and
    [play_animation] leave the session as it was, [blink_tick] has already
    toggled [tick] when it raises, and [board_has_changed] without a
    deadline ends in the same exception in its first turn, the changed
    flag cleared and [tick] toggled. *)
Theorem led_operations_disconnected (s : ChessnutAir) :
  _connection s = None ->
  (forall req, well_formed req ->
     change_leds req s = (inl AttributeError, s, []))
  /\ (forall sleep_time,
        blink_tick sleep_time s
        = (inl AttributeError, set_tick (negb (tick s)) s, []))
  /\ (forall frame frames sleep_time,
        Forall is_square_name frame ->
        play_animation (frame :: frames) sleep_time s
        = (inl AttributeError, s, []))
  /\ (forall others fuel timeout sleep_time now,
        (timeout <= 0)%Q ->
        board_has_changed others (S fuel) timeout sleep_time (s, now)
        = (Some (inl AttributeError),
           (set_tick (negb (tick s)) (set_board_changed false s), now),
           [mkTurn now []])).
Proof.
  intros Hnone. split; [| split; [| split]].
  - intros req Hreq. now apply change_leds_disconnected.
  - intros sleep_time. now apply blink_tick_disconnected.
  - intros frame frames sleep_time Hnames.
    destruct (names_and_squares_frame frame Hnames)
      as (squares & arr & Hparse & _ & _).
    unfold play_animation. cbn [for_each]. unfold bind at 1 2.
    rewrite Hparse. cbn [lift ret]. unfold bind at 1.
    rewrite change_leds_disconnected by (exact Hnone || exact I).
    reflexivity.
  - intros others fuel timeout sleep_time now Hle.
    unfold board_has_changed, end_time_of.
    assert (Hno : Qltb 0 timeout = false).
    { destruct (Qltb 0 timeout) eqn:E; [| reflexivity].
      apply Qltb_lt in E. lra. }
    rewrite Hno. cbn [wait_loop fst snd _board_changed set_board_changed
                      deadline_reached].
    rewrite blink_tick_disconnected by exact Hnone. reflexivity.
Qed.

(** *** A board nobody touches *)

Lemma inject_succ (j : nat) :
  (inject_Z (Z.of_nat (S j)) == inject_Z (Z.of_nat j) + 1)%Q.
Proof.
  rewrite Nat2Z.inj_succ. unfold Z.succ. rewrite inject_Z_plus. reflexivity.
Qed.

Lemma set_tick_same (s : ChessnutAir) : set_tick (tick s) s = s.
Proof. now destruct s. Qed.

Lemma wait_loop_uneventful (others : environment) (d step nap : Q)
    (N : nat) :
  (0 < step)%Q -> (step <= nap)%Q -> uneventful others step ->
  forall (s : ChessnutAir) (now : Q) (fuel : nat),
    is_Some (_connection s) -> _board_changed s = false -> (N < fuel)%nat ->
    (d <= now + inject_Z (Z.of_nat N) * step)%Q ->
    exists (n : nat) now' ts,
      (n <= N)%nat
      /\ wait_loop others fuel (Some d) nap (s, now)
         = (Some (inr false),
            (set_tick (if Nat.even n then tick s else negb (tick s)) s, now'),
            ts)
      /\ length ts = n
      /\ (d <= now')%Q.
Proof.
  intros Hstep Hnap Henv. induction N as [| N IH];
    intros s now fuel Hconn Hflag Hfuel Hle;
    (destruct fuel as [| fuel]; [lia |]).
  - exists 0%nat, now, []. cbn [wait_loop fst snd deadline_reached].
    rewrite Hflag.
    change (inject_Z (Z.of_nat 0)) with 0%Q in Hle.
    assert (Hd : (d <= now)%Q) by lra.
    rewrite (proj2 (Qle_bool_iff d now) Hd). cbn [Nat.even].
    rewrite set_tick_same. repeat split; [lia | exact Hd].
  - cbn [wait_loop fst snd deadline_reached]. rewrite Hflag.
    destruct (Qle_bool d now) eqn:Hdl.
    + apply Qle_bool_iff in Hdl. exists 0%nat, now, []. cbn [Nat.even].
      rewrite set_tick_same. repeat split; [lia | exact Hdl].
    + rewrite (blink_tick_run nap s Hconn).
      rewrite (proj2 (Qltb_lt 0 nap)) by lra.
      match goal with
      | |- context [others [WriteGatt ?payload; Sleep nap] (?s1, now)] =>
          destruct (Henv payload nap s1 now Hnap) as [Hs Hclock];
          destruct (others [WriteGatt payload; Sleep nap] (s1, now))
            as [s1' now1] eqn:Hw
      end.
      cbn [fst snd] in Hs, Hclock. subst s1'.
      rewrite (inject_succ N) in Hle.
      destruct (IH (set_tick (negb (tick s)) s) now1 fuel)
        as (n & now' & ts & Hn & Hrun & Hlen & Hd);
        [exact Hconn | exact Hflag | lia | lra |].
      rewrite Hrun. exists (S n), now'. eexists. split; [lia |].
      split.
      { f_equal. f_equal. rewrite Nat.even_succ, <- Nat.negb_even.
        destruct s as [c b o l ch f tb tl tk]. cbn.
        destruct (Nat.even n), tk; reflexivity. }
      split; [cbn [length]; now rewrite Hlen | exact Hd].
Qed.

(** X9: a wait with a positive timeout ends.  On a connected board that
    receives no notification, when every tick takes at least [step], a
    positive time not above [sleep_time] or the timeout, and the deadline
    [d], the double sum of the clock at the call and the timeout, is
    finite, the wait answers [False] after at most [N] ticks, for every
    [N] with [N] steps covering the time to the deadline; the clock has
    then reached the deadline, and the session differs from the one of
    the call by the cleared flag and one toggle of [tick] a tick. *)
Theorem wait_times_out (others : environment) (timeout sleep_time : Q)
    (step d : Q) (w : world) (N : nat) :
  is_Some (_connection (fst w)) ->
  (0 < step)%Q -> (step <= sleep_time)%Q -> (step <= timeout)%Q ->
  uneventful others step ->
  float_add (snd w) timeout = Some d ->
  (d <= snd w + inject_Z (Z.of_nat N) * step)%Q ->
  forall fuel, (N < fuel)%nat ->
  exists (n : nat) now' ts,
    (n <= N)%nat
    /\ board_has_changed others fuel timeout sleep_time w
       = (Some (inr false),
          (set_tick (if Nat.even n then tick (fst w)
                     else negb (tick (fst w)))
             (set_board_changed false (fst w)), now'),
          ts)
    /\ length ts = n
    /\ (d <= now')%Q.
Proof.
  intros Hconn Hstep Hsleep Htime Henv Hd Hle fuel Hfuel.
  unfold board_has_changed, end_time_of.
  rewrite (proj2 (Qltb_lt 0 timeout)) by lra. rewrite Hd.
  assert (Hnap : (step <= nap_of timeout sleep_time)%Q).
  { unfold nap_of. destruct (_ || _); assumption. }
  apply (wait_loop_uneventful others d step (nap_of timeout sleep_time) N
           Hstep Hnap Henv (set_board_changed false (fst w)) (snd w) fuel);
    [exact Hconn | reflexivity | exact Hfuel | exact Hle].
Qed.

Lemma wait_loop_quiet (nap : Q) (fuel : nat) (s : ChessnutAir) (now : Q) :
  is_Some (_connection s) -> _board_changed s = false ->
  exists w ts,
    wait_loop punctual fuel None nap (s, now) = (None, w, ts)
    /\ length ts = fuel.
Proof.
  revert s now. induction fuel as [| fuel IH]; intros s now Hconn Hflag.
  - exists (s, now), []. split; reflexivity.
  - cbn [wait_loop fst snd deadline_reached]. rewrite Hflag.
    rewrite (blink_tick_run nap s Hconn).
    match goal with
    | |- context [punctual ?t (?s1, ?c)] =>
        change (punctual t (s1, c)) with (s1, (c + slept t)%Q)
    end.
    match goal with
    | |- context [wait_loop punctual fuel None nap (?s1, ?now1)] =>
        destruct (IH s1 now1 Hconn Hflag) as (w & ts & Hrun & Hlen)
    end.
    rewrite Hrun. eexists w, _. split; [reflexivity |].
    cbn [length]. now rewrite Hlen.
Qed.

(** X10: a wait without a timeout forgets a change that was signalled
    before the call: it clears the flag first, so on a connected board
    that nobody touches afterwards it does not answer, however many turns
    it is given, each turn being one more tick. *)
Theorem wait_forgets_earlier_change (timeout sleep_time : Q) (w : world)
    (fuel : nat) :
  is_Some (_connection (fst w)) -> (timeout <= 0)%Q ->
  exists w' ts,
    board_has_changed punctual fuel timeout sleep_time w = (None, w', ts)
    /\ length ts = fuel.
Proof.
  intros Hconn Hle. unfold board_has_changed, end_time_of.
  assert (Hno : Qltb 0 timeout = false).
  { destruct (Qltb 0 timeout) eqn:E; [| reflexivity].
    apply Qltb_lt in E. lra. }
  rewrite Hno. now apply wait_loop_quiet.
Qed.

(** *** Discovery *)

Lemma startswith_prefix (s prefix : Py.str) :
  startswith s prefix = true <-> exists post, s = prefix ++ post.
Proof.
  revert s. induction prefix as [| p prefix IH]; intros s.
  - split; [eauto | now destruct s].
  - destruct s as [| c s]; cbn.
    + split; [discriminate | intros [post H]; discriminate].
    + rewrite andb_true_iff, bool_decide_eq_true, IH. split.
      * intros [-> [post ->]]. eauto.
      * intros [post [= -> ->]]. eauto.
Qed.

Lemma str_contains_infix (name ext : Py.str) :
  str_contains name ext = true
  <-> exists pre post, name = pre ++ ext ++ post.
Proof.
  induction name as [| c name IH].
  - cbn [str_contains]. rewrite orb_false_r, startswith_prefix. split.
    + intros [post H]. exists [], post. exact H.
    + intros (pre & post & H). destruct pre; [eauto | discriminate].
  - cbn [str_contains]. rewrite orb_true_iff, startswith_prefix, IH. split.
    + intros [[post H] | (pre & post & H)].
      * exists [], post. exact H.
      * exists (c :: pre), post. now rewrite H.
    + intros (pre & post & H). destruct pre as [| c' pre].
      * left. eauto.
      * right. injection H as -> ->. eauto.
Qed.

Lemma any_in_named (name : Py.str) (names : list Py.str) :
  exists found,
    any_in (Some name) names = inr found
    /\ (found = true
        <-> exists ext pre post, ext ∈ names /\ name = pre ++ ext ++ post).
Proof.
  induction names as [| ext names (found & IH & Hiff)].
  - exists false. split; [reflexivity |]. split; [discriminate |].
    intros (ext & _ & _ & Hin & _). now apply elem_of_nil in Hin.
  - cbn [any_in]. destruct (str_contains name ext) eqn:Hc.
    + exists true. split; [reflexivity |]. split; [| reflexivity].
      intros _. apply str_contains_infix in Hc as (pre & post & H).
      exists ext, pre, post. split; [apply list_elem_of_here | exact H].
    + exists found. split; [exact IH |]. rewrite Hiff. split.
      * intros (e & pre & post & Hin & H).
        exists e, pre, post. split; [now apply list_elem_of_further | exact H].
      * intros (e & pre & post & Hin & H).
        apply elem_of_cons in Hin as [-> | Hin].
        -- assert (str_contains name ext = true)
             by (apply str_contains_infix; eauto).
           congruence.
        -- eauto 6.
Qed.

(** X11: [_filter_by_name] accepts a named device exactly when one of the
    listed names occurs somewhere in the device's name, and only then
    remembers the device; a device without a name makes it raise
    [TypeError], unless the list of names is empty, and is never
    remembered. *)
Theorem filter_by_name_matches (device : BLEDevice) (d : discovery) :
  (forall name, device_name device = Some name ->
     exists found : bool,
       _filter_by_name device d
       = (inr found,
          if found then mkDiscovery (deviceNameList d) (Some device) else d)
       /\ (found = true
           <-> exists ext pre post,
                 ext ∈ deviceNameList d /\ name = pre ++ ext ++ post))
  /\ (device_name device = None ->
      _filter_by_name device d
      = (match deviceNameList d with
         | [] => inr false
         | _ :: _ => inl TypeError
         end, d)).
Proof.
  split.
  - intros name Hname.
    destruct (any_in_named name (deviceNameList d)) as (found & Hany & Hiff).
    exists found. split; [| exact Hiff].
    unfold _filter_by_name. rewrite Hname, Hany. now destruct found.
  - intros Hnone. unfold _filter_by_name. rewrite Hnone.
    now destruct (deviceNameList d).
Qed.

(** ** More on the decoder *)

Lemma yield_pair_cases (board : buffer) (i : nat) :
  (decodable board i
   /\ yield_pair board i = ([low_item board i; high_item board i], None))
  \/ (~ decodable board i
      /\ exists e k,
           (k <= 1)%nat
           /\ yield_pair board i
              = (take k [low_item board i; high_item board i], Some e)).
Proof.
  destruct (elems board !! i) as [b |] eqn:Hb.
  2: { right. split; [intros (b & H & _); congruence |].
       exists IndexError, 0%nat. split; [lia |].
       unfold yield_pair, Py.index. now rewrite Hb. }
  destruct (decode_nibble (b mod 16)) as [pl |] eqn:Hl.
  2: { right. split.
       { intros (b' & H & [pl H1] & _). congruence. }
       unfold yield_pair, Py.index, Py.getitem. rewrite Hb, low_nibble.
       unfold decode_nibble in Hl.
       destruct (convertDict !! (b mod 16)) as [sl |];
         [| exists KeyError, 0%nat; split; [lia | reflexivity]].
       destruct (piece_or_none sl) as [e | pl]; [| discriminate].
       exists e, 0%nat. split; [lia | reflexivity]. }
  assert (Hlow : low_item board i = (63 - Z.of_nat i * 2, pl)).
  { unfold low_item, piece_of_nibble.
    rewrite (nth_lookup_Some _ _ 0 _ Hb), Hl. cbn [default].
    f_equal. lia. }
  destruct (decode_nibble (b / 16)) as [pr |] eqn:Hr.
  - left. split; [exists b; unfold mapped; rewrite Hl, Hr; eauto |].
    rewrite (yield_pair_mapped board i b pl pr Hb Hl Hr).
    unfold low_item, high_item, piece_of_nibble.
    rewrite (nth_lookup_Some _ _ 0 _ Hb), Hl, Hr. reflexivity.
  - right. split.
    { intros (b' & H & _ & [pr H1]). congruence. }
    unfold yield_pair, Py.index, Py.getitem.
    rewrite Hb, low_nibble, high_nibble.
    unfold decode_nibble in Hl, Hr.
    destruct (convertDict !! (b mod 16)) as [sl |]; [| discriminate].
    destruct (piece_or_none sl) as [e | pl']; [discriminate |].
    injection Hl as ->. cbn [take]. rewrite Hlow.
    destruct (convertDict !! (b / 16)) as [sr |];
      [| exists KeyError, 1%nat; split; [lia | reflexivity]].
    destruct (piece_or_none sr) as [e | pr]; [| discriminate].
    exists e, 1%nat. split; [lia | reflexivity].
Qed.

Lemma gen_for_prefix (board : buffer) (l : list nat) :
  exists k,
    (k <= 2 * length l)%nat
    /\ (gen_for l (yield_pair board)).1
       = take k (concat (map (fun i => [low_item board i; high_item board i])
                             l))
    /\ ((gen_for l (yield_pair board)).2 = None
        <-> Forall (decodable board) l)
    /\ ((gen_for l (yield_pair board)).2 = None -> k = (2 * length l)%nat).
Proof.
  induction l as [| i l (k & Hk & Hitems & Hiff & Hall)].
  - exists 0%nat. cbn. repeat split; auto.
  - cbn [gen_for map concat length].
    destruct (yield_pair_cases board i) as [[Hok ->] | (Hbad & e & k0 & Hk0 & ->)].
    + destruct (gen_for l (yield_pair board)) as [zs r]. cbn [fst snd] in *.
      exists (2 + k)%nat. split; [lia |]. split; [now rewrite Hitems |].
      split.
      * rewrite Hiff, Forall_cons. tauto.
      * intros H. rewrite (Hall H). lia.
    + exists k0. cbn [fst snd]. split; [lia |]. split.
      { destruct k0 as [| [| k0]]; [reflexivity | reflexivity | lia]. }
      split; [| discriminate].
      split; [discriminate |]. intros H. apply Forall_cons in H. tauto.
Qed.










(** ** More on the notation *)

Ltac square_case board :=
  eexists (rev (rank_row board _)), _;
  split; [reflexivity |];
  rewrite expand_rev, (proj2 (rank_row_facts board _));
  split; [| reflexivity];
  apply list_elem_of_lookup;
  match goal with
  | |- exists k, _ !! k = Some (?sq, _) =>
      let n := eval vm_compute in (Z.to_nat (63 - sq)) in
      exists n; reflexivity
  end.

(** X13: the notation of a board of 32 bytes with mapped nibbles is eight
    rows joined by [/]; a row holds no [/] and no whitespace and, its
    digits expanded, has one character per square; row [7 - rank] is the
    rank [rank], and the character of file [file] in it is that of the
    piece the decoder yields for the square of that file and rank: the
    piece's symbol, or the marker of an empty square. *)
Theorem fen_places_pieces (s : ChessnutAir) :
  length (elems (board_state s)) = 32%nat ->
  (forall b, b ∈ elems (board_state s) ->
     mapped (b mod 16) /\ mapped (b / 16)) ->
  exists rows,
    board_state_as_fen s
    = (inr (Py.join (Py.lit "/") rows),
       set_cur_fen (Py.join (Py.lit "/") rows) s)
    /\ length rows = 8%nat
    /\ Forall (fun row => Forall plain row /\ length (expand row) = 8%nat)
              rows
    /\ forall file rank, 0 <= file < 8 -> 0 <= rank < 8 ->
         exists row p,
           rows !! Z.to_nat (7 - rank) = Some row
           /\ (chess.square file rank, p)
              ∈ (board_state_as_square_and_piece (board_state s)).1
           /\ expand row !! Z.to_nat file = Some (square_char p).
Proof.
  intros Hlen Hmap.
  pose proof (decoder_mapped (board_state s) Hlen Hmap) as Hdec.
  set (board := board_state s) in *.
  exists (map (fun r => rev (rank_row board r)) (seq 0 8)).
  split; [| split; [| split]].
  - unfold board_state_as_fen. fold board.
    rewrite Hdec, mirrored_fen. reflexivity.
  - reflexivity.
  - apply Forall_map, Forall_forall. intros r _. cbv beta.
    split; [apply Forall_rev, rank_row_facts |].
    rewrite expand_rev, length_rev, (proj2 (rank_row_facts board r)).
    reflexivity.
  - intros file rank Hf Hr. rewrite Hdec. cbn [fst].
    destruct (small_nat_cases file 8 Hf) as (kf & -> & Hkf).
    destruct (small_nat_cases rank 8 Hr) as (kr & -> & Hkr).
    do 8 (destruct kr as [| kr];
          [do 8 (destruct kf as [| kf]; [square_case board |]); lia |]).
    lia.
Qed.

(** *** Comparing with the notation of another board *)

Lemma split_ws_aux_field (field : Py.str) (c : ascii) (rest cur : Py.str) :
  Forall (fun ch => Py.isspace ch = false) field -> cur ++ field <> [] ->
  Py.isspace c = true ->
  Py.split_ws_aux cur (field ++ c :: rest)
  = (rev cur ++ field) :: Py.split_ws_aux [] rest.
Proof.
  intros Hfield. revert cur.
  induction Hfield as [| a field Ha _ IH]; intros cur Hne Hc.
  - rewrite app_nil_r in *. cbn [app Py.split_ws_aux]. rewrite Hc.
    destruct cur; [contradiction | reflexivity].
  - cbn [app Py.split_ws_aux]. rewrite Ha.
    rewrite (IH (a :: cur)) by (discriminate || exact Hc).
    cbn [rev]. now rewrite <- app_assoc.
Qed.

Lemma convert_fen_first_field (fen rest : Py.str) :
  Forall (fun ch => Py.isspace ch = false) fen -> fen <> [] ->
  convert_fen (fen ++ Py.lit " " ++ rest) = convert_fen fen.
Proof.
  intros Hfen Hne. unfold convert_fen.
  rewrite (split_ws_clean fen Hfen Hne). unfold Py.split_ws.
  change (Py.lit " " ++ rest) with (" "%char :: rest).
  rewrite split_ws_aux_field by (exact Hfen || exact Hne || reflexivity).
  reflexivity.
Qed.

Lemma board_items_lookup (board : buffer) (k : nat) (it : item) :
  board_items board !! k = Some it ->
  fst it = 63 - Z.of_nat k /\ (k < 64)%nat.
Proof.
  intros Hk.
  pose proof (lookup_lt_Some _ _ _ Hk) as Hlt. change (k < 64)%nat in Hlt.
  split; [| exact Hlt].
  pose proof (list_lookup_fmap fst (board_items board) k) as H1.
  unfold item in Hk. rewrite Hk in H1.
  change (fst <$> board_items board) with (map fst (board_items board)) in H1.
  rewrite board_items_squares in H1.
  change (map (fun k => 63 - Z.of_nat k) (seq 0 64))
    with ((fun k => 63 - Z.of_nat k) <$> seq 0 64) in H1.
  rewrite list_lookup_fmap, lookup_seq_lt in H1 by lia.
  cbn in H1. injection H1 as <-. lia.
Qed.

Lemma compare_aligned (target : Py.str) (items1 items2 : list item)
    (acc : list difference) :
  Forall2 (fun it1 it2 =>
             fst it1 = fst it2
             /\ Py.index target (Z.to_nat (fst it2))
                = inr (square_char (snd it2))) items1 items2 ->
  fold_left (compare_step target) items1 (inr acc)
  = inr (acc ++ omap differing (zip items1 items2)).
Proof.
  intros Hall. revert acc.
  induction Hall as [| [sq1 p1] [sq2 p2] items1 items2 [Hsq Hit] _ IH];
    intros acc.
  - cbn. now rewrite app_nil_r.
  - cbn [fst snd] in Hsq, Hit. subst sq1.
    cbn [fold_left]. unfold compare_step at 2. cbn [fst snd]. rewrite Hit.
    cbn [zip zip_with omap list_omap]. unfold differing at 1. cbn [fst snd].
    destruct p2 as [p2 |]; cbn [square_char].
    + destruct (symbol_facts p2) as (_ & _ & Hne & Hsym).
      rewrite (bool_decide_eq_true_2 _ Hne), Hsym.
      destruct (decide (p1 = Some p2)) as [E | E].
      * rewrite (bool_decide_eq_false_2 (p1 <> Some p2)) by tauto.
        rewrite (bool_decide_eq_true_2 _ E). apply IH.
      * rewrite (bool_decide_eq_true_2 _ E), (bool_decide_eq_false_2 _ E).
        rewrite IH, <- app_assoc. reflexivity.
    + rewrite (bool_decide_eq_false_2 ("1"%char <> "1"%char)) by tauto.
      destruct (decide (p1 = None)) as [E | E].
      * rewrite (bool_decide_eq_false_2 (p1 <> None)) by tauto.
        rewrite (bool_decide_eq_true_2 _ E). apply IH.
      * rewrite (bool_decide_eq_true_2 _ E), (bool_decide_eq_false_2 _ E).
        rewrite IH, <- app_assoc. reflexivity.
Qed.

Lemma compare_with_board (board1 board2 : buffer) :
  fold_left
    (compare_step (rev (map square_char (map snd (board_items board2)))))
    (board_items board1) (inr [])
  = inr (board_differences board1 board2).
Proof.
  rewrite (compare_aligned _ _ (board_items board2)); [reflexivity |].
  apply Forall2_same_length_lookup_2; [reflexivity |].
  intros k it1 it2 H1 H2.
  destruct (board_items_lookup board1 k it1 H1) as [E1 _].
  destruct (board_items_lookup board2 k it2 H2) as [E2 _].
  split; [congruence |].
  pose proof (target_matches board2) as Hall.
  rewrite Forall_forall in Hall. apply Hall.
  apply list_elem_of_lookup. eauto.
Qed.

(** X14: comparing a board with the notation of a second board reports
    the squares on which the two differ, from square 63 down, each with
    the piece the board has and the piece the second board has, and
    nothing else; fields that follow the notation after a space, such as
    the side to move, change nothing. *)
Theorem compare_reports_differences (s : ChessnutAir) (target : buffer)
    (rest : Py.str) :
  length (elems (board_state s)) = 32%nat ->
  (forall b, b ∈ elems (board_state s) ->
     mapped (b mod 16) /\ mapped (b / 16)) ->
  length (elems target) = 32%nat ->
  (forall b, b ∈ elems target -> mapped (b mod 16) /\ mapped (b / 16)) ->
  exists fen,
    (board_state_as_fen (set_board_state target s)).1 = inr fen
    /\ compare_board_state_to_fen fen s
       = inr (board_differences (board_state s) target)
    /\ compare_board_state_to_fen (fen ++ Py.lit " " ++ rest) s
       = inr (board_differences (board_state s) target).
Proof.
  intros Hlen Hmap Hlen2 Hmap2.
  pose proof (decoder_mapped (board_state s) Hlen Hmap) as Hdec.
  pose proof (decoder_mapped target Hlen2 Hmap2) as Hdec2.
  exists (mirror_rows (raw_fen (board_items target))).
  assert (Hcmp : compare_board_state_to_fen
                   (mirror_rows (raw_fen (board_items target))) s
                 = inr (board_differences (board_state s) target)).
  { unfold compare_board_state_to_fen.
    rewrite converted_fen, target_squares, Hdec, compare_with_board.
    reflexivity. }
  split; [| split; [exact Hcmp |]].
  - unfold board_state_as_fen. cbn [board_state set_board_state].
    rewrite Hdec2. reflexivity.
  - rewrite <- Hcmp. unfold compare_board_state_to_fen.
    rewrite convert_fen_first_field; [reflexivity | |].
    + rewrite mirrored_fen.
      apply join_no_space, Forall_map, Forall_forall. intros r _. cbv beta.
      apply Forall_rev, rank_row_facts.
    + rewrite mirrored_fen. cbn [seq map Py.join].
      destruct (rev (rank_row target 0)); discriminate.
Qed.

(** *** Targets that leave squares out *)

Lemma split_ws_blank (s : Py.str) :
  Forall (fun ch => Py.isspace ch = true) s -> Py.split_ws s = [].
Proof.
  unfold Py.split_ws. induction 1 as [| c s Hc _ IH]; [reflexivity |].
  cbn [Py.split_ws_aux]. now rewrite Hc.
Qed.

Lemma concat_split_on (sep : ascii) (s : list ascii) :
  concat (Py.split_on sep s) = filter (fun ch => ch <> sep) s.
Proof.
  induction s as [| c s IH]; [reflexivity |].
  cbn [Py.split_on]. rewrite filter_cons.
  destruct (decide (c = sep)) as [E | E].
  - rewrite (bool_decide_eq_true_2 _ E).
    destruct (decide (c <> sep)); [contradiction |]. exact IH.
  - rewrite (bool_decide_eq_false_2 _ E).
    destruct (decide (c <> sep)); [| contradiction].
    pose proof (split_on_not_nil sep s) as Hne.
    destruct (Py.split_on sep s) as [| w ws]; [contradiction |].
    cbn [concat app] in *. now rewrite IH.
Qed.

Lemma length_concat_rev {A} (l : list (list A)) :
  length (concat (rev l)) = length (concat l).
Proof.
  induction l as [| x l IH]; [reflexivity |].
  cbn [rev concat]. rewrite concat_app. cbn [concat].
  rewrite app_nil_r, !length_app, IH. lia.
Qed.

Lemma compare_step_error (target : Py.str) (items : list item) (e : exn) :
  fold_left (compare_step target) items (inl e) = inl e.
Proof. induction items as [| it items IH]; [reflexivity | exact IH]. Qed.

(** X15: a target without any field, empty or all whitespace, makes the
    comparison raise [IndexError] whatever the board; and so does, for a
    board of 32 bytes with mapped nibbles, a target of ASCII characters
    whose first field, its digits expanded and its [/] left out, has
    fewer than 64 characters. *)
Theorem compare_rejects_short_target (target_fen : Py.str)
    (s : ChessnutAir) :
  (Forall (fun ch => Py.isspace ch = true) target_fen ->
   compare_board_state_to_fen target_fen s = inl IndexError)
  /\ (forall converted : list ascii,
        Forall (fun ch => Py.code ch < 128) target_fen ->
        convert_fen target_fen = inr converted ->
        (length (filter (fun ch => ch <> "/"%char) converted) < 64)%nat ->
        length (elems (board_state s)) = 32%nat ->
        (forall b, b ∈ elems (board_state s) ->
           mapped (b mod 16) /\ mapped (b / 16)) ->
        compare_board_state_to_fen target_fen s = inl IndexError).
Proof.
  split.
  - intros Hblank. unfold compare_board_state_to_fen, convert_fen.
    rewrite (split_ws_blank target_fen Hblank). reflexivity.
  - intros converted _ Hconv Hshort Hlen Hmap.
    unfold compare_board_state_to_fen.
    rewrite Hconv, (decoder_mapped (board_state s) Hlen Hmap).
    set (target := concat (rev (Py.split_on "/" converted))).
    assert (Htarget : (length target < 64)%nat).
    { unfold target, Py.str.
      now rewrite length_concat_rev, concat_split_on. }
    change (board_items (board_state s))
      with (low_item (board_state s) 0
            :: tail (board_items (board_state s))).
    cbn [fold_left]. unfold compare_step at 2, Py.index.
    rewrite (proj2 (lookup_ge_None target _)) by (cbn; lia).
    now rewrite compare_step_error.
Qed.

(** ** Square names and the decoder *)

Lemma parse_loc_to_pos (location : Z) :
  0 <= location < 64 ->
  parse_square (loc_to_pos location false) = inr (63 - location).
Proof.
  intros H. destruct (small_nat_cases location 64 H) as (k & -> & Hk).
  do 64 (destruct k as [| k]; [vm_compute; reflexivity |]). lia.
Qed.

(** X16: without the reversed flag [loc_to_pos] names the squares in the
    order of the board's buffer: the name of location [l] parses to the
    square [63 - l], so that distinct locations 0..63 get distinct names,
    and the item the decoder yields in position [k] is on the square that
    [loc_to_pos k] names. *)
Theorem loc_to_pos_names_decoder_squares :
  (forall l, 0 <= l < 64 ->
     parse_square (loc_to_pos l false) = inr (63 - l))
  /\ (forall l1 l2, 0 <= l1 < 64 -> 0 <= l2 < 64 ->
        loc_to_pos l1 false = loc_to_pos l2 false -> l1 = l2)
  /\ (forall board k it,
        (board_state_as_square_and_piece board).1 !! k = Some it ->
        parse_square (loc_to_pos (Z.of_nat k) false) = inr (fst it)).
Proof.
  split; [exact parse_loc_to_pos |]. split.
  - intros l1 l2 H1 H2 E.
    pose proof (parse_loc_to_pos l1 H1) as P1.
    pose proof (parse_loc_to_pos l2 H2) as P2.
    rewrite E in P1. assert (63 - l1 = 63 - l2) by congruence. lia.
  - intros board k it Hk.
    unfold board_state_as_square_and_piece in Hk.
    destruct (gen_for_prefix board (seq 0 32)) as (n & _ & Hitems & _).
    rewrite Hitems in Hk. apply lookup_take_Some in Hk as [Hk _].
    destruct (board_items_lookup board k it Hk) as [-> Hlt].
    rewrite parse_loc_to_pos by lia. reflexivity.
Qed.

(** ** More on the notification handler *)

(** Once the buffers are replaced, callbacks that leave them alone cannot
    bring the old ones back. *)
Lemma handler_buffers (data : list Z) (s : ChessnutAir) :
  keeps_buffers piece_up -> keeps_buffers piece_down ->
  payload_slice data <> _old_data s ->
  board_state (_handler data s).1.2 = payload_slice data
  /\ _old_data (_handler data s).1.2 = payload_slice data.
Proof.
  intros Kup Kdown E. rewrite handler_run by exact E.
  set (rdata := payload_slice data).
  set (evs := expected_events _ _).
  destruct (deliver_all_keeps
              (fun s' => board_state s' = rdata /\ _old_data s' = rdata)
              evs (replaced rdata s)) as [[Hb Ho] _].
  { intros l p s0 [H1 H2]. destruct (Kup l p s0) as [-> ->]. auto. }
  { intros l p s0 [H1 H2]. destruct (Kdown l p s0) as [-> ->]. auto. }
  { split; reflexivity. }
  destruct (for_each evs deliver _) as [[[x | []] s'] t]; auto.
Qed.

(** X17: a notification that repeats the board bytes of the one before is
    ignored, whatever its header and whatever follows byte 34: as long as
    the callbacks leave the two buffers alone, the handler run again on
    the session it left returns at once, invokes no callback and changes
    nothing, even when the first run ended in an exception, so that the
    events the exception cut off are not reported later. *)
Theorem handler_ignores_repeat (data data' : list Z) (s : ChessnutAir) :
  keeps_buffers piece_up -> keeps_buffers piece_down ->
  payload_slice data' = payload_slice data ->
  _handler data' (_handler data s).1.2
  = (inr tt, (_handler data s).1.2, []).
Proof.
  intros Kup Kdown Hsame. apply handler_unchanged. rewrite Hsame.
  destruct (decide (payload_slice data = _old_data s)) as [E | E].
  - rewrite handler_unchanged by exact E. exact E.
  - symmetry. now apply handler_buffers.
Qed.

(** X18: the buffer the constructor installs is a list, which no slice of
    a notification equals; so a first notification is a change even when
    it carries the very bytes of that list: the flag is set and both
    buffers become the slice, without any callback. *)
Theorem first_notification_is_a_change (data : list Z) (s : ChessnutAir)
    (l : list Z) :
  _old_data s = PyList l -> length l = 32%nat ->
  elems (payload_slice data) = l ->
  _handler data s = (inr tt, replaced (payload_slice data) s, [])
  /\ _board_changed (replaced (payload_slice data) s) = true
  /\ _old_data (replaced (payload_slice data) s) <> _old_data s.
Proof.
  intros Hold Hlen Hnew.
  assert (E : payload_slice data <> _old_data s).
  { rewrite Hold. discriminate. }
  split; [| split; [reflexivity | exact E]].
  rewrite handler_run by exact E.
  rewrite Hold, Hnew. cbn [elems]. rewrite take_ge by lia.
  unfold expected_events. rewrite changes_from_same.
  unfold too_short. rewrite Hlen. reflexivity.
Qed.

(** *** The events and the decoder *)








(** *** An empty comparison *)

Lemma no_differences (items1 items2 : list item) :
  Forall2 (fun it1 it2 => fst it1 = fst it2) items1 items2 ->
  omap differing (zip items1 items2) = [] <-> items1 = items2.
Proof.
  induction 1 as [| [sq1 p1] [sq2 p2] items1 items2 Hsq _ IH].
  - split; reflexivity.
  - cbn [fst] in Hsq. subst sq2.
    cbn [zip zip_with omap list_omap]. unfold differing at 1. cbn [fst snd].
    destruct (decide (p1 = p2)) as [-> | E].
    + rewrite (bool_decide_eq_true_2 (p2 = p2)) by reflexivity.
      rewrite IH. split; [now intros -> | now intros [= ->]].
    + rewrite (bool_decide_eq_false_2 _ E).
      split; [discriminate | intros [= H]; contradiction].
Qed.

(** X21: the comparison of a board with the notation of a second board
    comes out empty exactly when the decoder yields the same pieces on
    the same squares for both. *)
Theorem compare_empty_iff_same_pieces (s : ChessnutAir) (target : buffer) :
  length (elems (board_state s)) = 32%nat ->
  (forall b, b ∈ elems (board_state s) ->
     mapped (b mod 16) /\ mapped (b / 16)) ->
  length (elems target) = 32%nat ->
  (forall b, b ∈ elems target -> mapped (b mod 16) /\ mapped (b / 16)) ->
  exists fen,
    (board_state_as_fen (set_board_state target s)).1 = inr fen
    /\ (compare_board_state_to_fen fen s = inr []
        <-> board_state_as_square_and_piece (board_state s)
            = board_state_as_square_and_piece target).
Proof.
  intros Hlen Hmap Hlen2 Hmap2.
  pose proof (decoder_mapped (board_state s) Hlen Hmap) as Hdec.
  pose proof (decoder_mapped target Hlen2 Hmap2) as Hdec2.
  exists (mirror_rows (raw_fen (board_items target))). split.
  - unfold board_state_as_fen. cbn [board_state set_board_state].
    rewrite Hdec2. reflexivity.
  - unfold compare_board_state_to_fen.
    rewrite converted_fen, target_squares, Hdec, Hdec2, compare_with_board.
    unfold board_differences.
    assert (Hsq : Forall2 (fun it1 it2 : item => fst it1 = fst it2)
                    (board_items (board_state s)) (board_items target)).
    { apply Forall2_same_length_lookup_2; [reflexivity |].
      intros k it1 it2 H1 H2.
      destruct (board_items_lookup _ k it1 H1) as [E1 _].
      destruct (board_items_lookup _ k it2 H2) as [E2 _]. congruence. }
    split; intros H.
    + assert (H' : omap differing
                     (zip (board_items (board_state s)) (board_items target))
                   = []) by congruence.
      apply (no_differences _ _ Hsq) in H'. now rewrite H'.
    + assert (H' : board_items (board_state s) = board_items target)
        by congruence.
      apply (no_differences _ _ Hsq) in H'. now rewrite H'.
Qed.

(** *** The handler wakes the wait *)



End Board.

(** * A consumer that overrides nothing *)

(** X20: with the callbacks the class itself defines, which raise
    [NotImplementedError], a notification that changes the board replaces
    the buffers and sets the flag, invokes the callback of the first
    change only, entered with the buffers already replaced, and ends in
    that exception; the changes after the first are not reported. *)
Theorem handler_without_callbacks (convertDict : gmap Z Py.str)
    (data : list Z) (s : ChessnutAir) (e : event) (rest : list event)
    (p : chess.Piece) :
  payload_slice data <> _old_data s ->
  expected_events (take 32 (elems (_old_data s)))
    (elems (payload_slice data)) = e :: rest ->
  nibble_piece convertDict (ev_nibble e) = inr p ->
  _handler convertDict not_overridden not_overridden data s
  = (inl NotImplementedError, replaced (payload_slice data) s,
     [mkCall (ev_dir e) (ev_loc e) p (replaced (payload_slice data) s)]).
Proof.
  intros E Hev Hp. rewrite handler_run by exact E.
  rewrite Hev, deliver_step, Hp.
  unfold callback_of, not_overridden. now destruct (ev_dir e).
Qed.

(** * Instances *)

(** ** Facts about the sample inputs *)

Lemma mapped_check (convertDict : gmap Z Py.str) (l : list Z) :
  forallb (fun b =>
             bool_decide (is_Some (decode_nibble convertDict (b mod 16)))
             && bool_decide (is_Some (decode_nibble convertDict (b / 16))))
          l = true ->
  forall b, b ∈ l ->
    mapped convertDict (b mod 16) /\ mapped convertDict (b / 16).
Proof.
  intros H b Hb. rewrite forallb_forall in H.
  specialize (H b (proj1 (list_elem_of_In _ _) Hb)).
  apply andb_prop in H as [H1 H2].
  split; [exact (bool_decide_eq_true_1 _ H1) |].
  exact (bool_decide_eq_true_1 _ H2).
Qed.

Lemma start_buffer_mapped :
  forall b, b ∈ elems (ByteArray start_buffer) ->
    mapped convertDict_air (b mod 16) /\ mapped convertDict_air (b / 16).
Proof. apply mapped_check. vm_compute. reflexivity. Qed.

Lemma ready_connected_board : ready connected_board.
Proof. split; [eexists; reflexivity | reflexivity]. Qed.

Lemma connected_board_connected : is_Some (_connection connected_board).
Proof. eexists; reflexivity. Qed.


Lemma quiet_keeps_buffers : keeps_buffers quiet.
Proof. intros l p s. split; reflexivity. Qed.


Lemma e4_is_square_name : is_square_name (Py.lit "e4").
Proof. exists 4, 3. repeat split; lia. Qed.

(** ** The theorems at sample inputs *)

Lemma start_buffer_translates :
  forall b, b ∈ elems (ByteArray start_buffer) ->
    (exists p, translates convertDict_air (b mod 16) p)
    /\ (exists p, translates convertDict_air (b / 16) p).
Proof.
  intros b Hb. destruct (start_buffer_mapped b Hb) as [[pl Hl] [pr Hr]].
  split; eexists; apply decodes_translates; eassumption.
Qed.

Lemma decoder_square_layout_witness :
  length (elems (ByteArray start_buffer)) = 32%nat
  /\ exists items,
       board_state_as_square_and_piece convertDict_air (ByteArray start_buffer)
       = (items, None)
       /\ length items = 64%nat
       /\ forall (i : nat) (b : Z),
            elems (ByteArray start_buffer) !! i = Some b ->
            exists pl pr,
              translates convertDict_air (b mod 16) pl
              /\ translates convertDict_air (b / 16) pr
              /\ items !! (2 * i)%nat = Some (63 - 2 * Z.of_nat i, pl)
              /\ items !! (2 * i + 1)%nat
                 = Some (63 - (2 * Z.of_nat i + 1), pr).
Proof.
  split; [reflexivity |].
  exact (decoder_square_layout convertDict_air (ByteArray start_buffer)
           eq_refl start_buffer_translates).
Defined.




Lemma fen_round_trip_witness :
  length (elems (board_state tracking_start)) = 32%nat
  /\ exists fen,
       board_state_as_fen convertDict_air tracking_start
       = (inr fen, set_cur_fen fen tracking_start)
       /\ compare_board_state_to_fen convertDict_air fen
            (set_cur_fen fen tracking_start) = inr [].
Proof.
  split; [reflexivity |].
  exact (fen_round_trip convertDict_air tracking_start
           eq_refl start_buffer_mapped).
Defined.

Lemma change_leds_command_witness :
  ready connected_board /\ well_formed (ReqList [Py.lit "e4"])
  /\ exists frame,
       change_leds (ReqList [Py.lit "e4"]) connected_board
       = (inr tt, connected_board, [WriteGatt (0x0A :: 0x08 :: frame)])
       /\ length frame = 8%nat
       /\ Forall (fun b => 0 <= b < 256) frame
       /\ forall file rank, 0 <= file < 8 -> 0 <= rank < 8 ->
            led frame file rank = requested (ReqList [Py.lit "e4"]) file rank.
Proof.
  assert (Hwf : well_formed (ReqList [Py.lit "e4"])).
  { constructor; [exact e4_is_square_name | constructor]. }
  split; [exact ready_connected_board |]. split; [exact Hwf |].
  exact (change_leds_command _ _ ready_connected_board Hwf).
Defined.

Lemma change_leds_empty_or_none_witness :
  is_Some (_connection connected_board)
  /\ change_leds (ReqSquareSet (chess.SquareSet_of_int 0)) connected_board
     = (inr tt, connected_board,
        [WriteGatt [0x0A; 0x08; 0; 0; 0; 0; 0; 0; 0; 0]])
  /\ change_leds (ReqList []) connected_board
     = (inr tt, connected_board,
        [WriteGatt [0x0A; 0x08; 0; 0; 0; 0; 0; 0; 0; 0]])
  /\ change_leds ReqNone connected_board = (inr tt, connected_board, []).
Proof.
  destruct (change_leds_empty_or_none connected_board
              connected_board_connected) as (H1 & H2 & H3).
  split; [exact connected_board_connected |]. split; [| split].
  - exact (H1 (chess.SquareSet_of_int 0) eq_refl).
  - exact H2.
  - exact (H3 connected_board).
Defined.

Lemma blink_tick_alternates_witness :
  is_Some (_connection connected_board)
  /\ exists frame,
       blink_tick 0 connected_board
       = (inr tt, set_tick true connected_board,
          [WriteGatt (_led_command connected_board ++ frame)])
       /\ length frame = 8%nat
       /\ forall file rank, 0 <= file < 8 -> 0 <= rank < 8 ->
            led frame file rank
            = chess.contains (to_blink connected_board)
                (chess.square file rank)
              || chess.contains (to_light connected_board)
                   (chess.square file rank).
Proof.
  split; [exact connected_board_connected |].
  exact (proj1 blink_tick_alternates 0%Q connected_board
           connected_board_connected).
Defined.

Lemma punctual_uneventful (step : Q) : uneventful punctual step.
Proof.
  intros payload nap s now H. split; [reflexivity |].
  unfold punctual. cbn [fst snd slept fold_left]. lra.
Qed.



(** ** Doubles

    The sum of the doubles 0.1 and 0.2 is the double 0.30000000000000004;
    a timeout of 1e-8 added to a clock of some 1.7e9 seconds is lost in
    the rounding, so that the wait answers [False] without a tick; and on
    a clock that adds up the sleeps as doubles a wait of 0.8 in naps of
    0.1 takes nine ticks, where eight exact naps would do. *)

Lemma double_sums :
  float_add (double_of (1 # 10)) (double_of (2 # 10))
  = Some (1351079888211149 # 4503599627370496)%Q
  /\ float_add 1762200000 (double_of (1 # 100000000)) = Some 1762200000%Q
  /\ float_add 0 1 = Some 1%Q.
Proof. repeat split; vm_compute; reflexivity. Qed.

Lemma waits_on_doubles :
  board_has_changed punctual 3 (double_of (1 # 100000000)) (double_of (4 # 10))
    (connected_board, 1762200000%Q)
  = (Some (inr false),
     (set_board_changed false connected_board, 1762200000%Q), [])
  /\ (board_has_changed double_clock 12 (double_of (8 # 10))
        (double_of (1 # 10)) (connected_board, 0%Q)).1.1
     = Some (inr false)
  /\ length (board_has_changed double_clock 12 (double_of (8 # 10))
               (double_of (1 # 10)) (connected_board, 0%Q)).2 = 9%nat
  /\ length (board_has_changed punctual 12 (double_of (8 # 10))
               (double_of (1 # 10)) (connected_board, 0%Q)).2 = 8%nat.
Proof. repeat split; vm_compute; reflexivity. Qed.

(** ** The further theorems at sample inputs *)

Lemma a1_is_square_name : is_square_name (Py.lit "a1").
Proof. exists 0, 0. repeat split; lia. Qed.

Lemma e4_a1_are_square_names :
  Forall is_square_name [Py.lit "e4"; Py.lit "a1"].
Proof.
  constructor; [exact e4_is_square_name |].
  constructor; [exact a1_is_square_name | constructor].
Qed.

Lemma h2_lifted_mapped :
  forall b, b ∈ elems (ByteArray h2_lifted) ->
    mapped convertDict_air (b mod 16) /\ mapped convertDict_air (b / 16).
Proof. apply mapped_check. vm_compute. reflexivity. Qed.

Lemma change_leds_unlightable_name_witness :
  Exists (fun pos => ~ lightable pos) [Py.lit "e4"; Py.lit "e"]
  /\ exists e,
       change_leds (ReqList [Py.lit "e4"; Py.lit "e"]) connected_board
       = (inl e, connected_board, [])
       /\ (e = KeyError \/ e = IndexError).
Proof.
  assert (H : Exists (fun pos => ~ lightable pos) [Py.lit "e4"; Py.lit "e"]).
  { apply Exists_cons_tl, Exists_cons_hd.
    intros (file & rank & rest & _ & _ & E). discriminate E. }
  split; [exact H |].
  exact (proj2 (change_leds_unlightable_name _ connected_board) H).
Defined.

Lemma change_leds_names_as_squares_witness :
  Forall is_square_name [Py.lit "e4"; Py.lit "a1"]
  /\ exists squares,
       parse_all [Py.lit "e4"; Py.lit "a1"] = inr squares
       /\ change_leds (ReqSquareSet (chess.SquareSet_of_squares squares))
            connected_board
          = change_leds (ReqList [Py.lit "e4"; Py.lit "a1"]) connected_board.
Proof.
  split; [exact e4_a1_are_square_names |].
  exact (change_leds_names_as_squares _ connected_board
           e4_a1_are_square_names).
Defined.

Lemma change_leds_names_as_set_witness :
  Forall is_square_name [Py.lit "a1"; Py.lit "e4"; Py.lit "a1"]
  /\ change_leds (ReqList [Py.lit "e4"; Py.lit "a1"]) connected_board
     = change_leds (ReqList [Py.lit "a1"; Py.lit "e4"; Py.lit "a1"])
         connected_board.
Proof.
  assert (H : Forall is_square_name [Py.lit "a1"; Py.lit "e4"; Py.lit "a1"]).
  { constructor; [exact a1_is_square_name | exact e4_a1_are_square_names]. }
  split; [exact H |].
  apply (change_leds_names_as_set _ _ connected_board
           e4_a1_are_square_names H).
  intros name. rewrite !elem_of_cons. tauto.
Defined.

Lemma play_animation_shows_frames_witness :
  Forall (Forall is_square_name) [[Py.lit "e4"]; [Py.lit "e4"; Py.lit "a1"]]
  /\ play_animation [[Py.lit "e4"]; [Py.lit "e4"; Py.lit "a1"]] (1 # 2)
       connected_board
     = (inr tt, connected_board,
        [WriteGatt [0x0A; 0x08; 0; 0; 0; 0; 8; 0; 0; 0]; Sleep (1 # 2);
         WriteGatt [0x0A; 0x08; 0; 0; 0; 0; 8; 0; 0; 128]; Sleep (1 # 2)]).
Proof.
  assert (H : Forall (Forall is_square_name)
                [[Py.lit "e4"]; [Py.lit "e4"; Py.lit "a1"]]).
  { constructor; [constructor; [exact e4_is_square_name | constructor] |].
    constructor; [exact e4_a1_are_square_names | constructor]. }
  split; [exact H |].
  exact (proj1 (play_animation_shows_frames _ (1 # 2) connected_board
                  connected_board_connected H)).
Defined.

Lemma frame_round_trip_witness :
  is_Some (_connection connected_board)
  /\ exists frame,
       change_leds (ReqSquareSet (chess.SquareSet_of_squares [E5; E4]))
         connected_board
       = (inr tt, connected_board,
          [WriteGatt (_led_command connected_board ++ frame)])
       /\ lit_squares frame
          = filter (fun sq =>
                      chess.contains (chess.SquareSet_of_squares [E5; E4]) sq
                      = true)
                   (zrange 0 64)
       /\ chess.int (chess.SquareSet_of_squares (lit_squares frame))
          = chess.int (chess.SquareSet_of_squares [E5; E4]).
Proof.
  split; [exact connected_board_connected |].
  exact (frame_round_trip _ connected_board connected_board_connected).
Defined.

Lemma blink_tick_twice_witness :
  is_Some (_connection (blink_scene false))
  /\ exists off on,
       (forall file rank, 0 <= file < 8 -> 0 <= rank < 8 ->
          led off file rank
          = chess.contains (to_light (blink_scene false))
              (chess.square file rank))
       /\ (forall file rank, 0 <= file < 8 -> 0 <= rank < 8 ->
             led on file rank
             = chess.contains (to_blink (blink_scene false))
                 (chess.square file rank)
               || chess.contains (to_light (blink_scene false))
                    (chess.square file rank))
       /\ bind (blink_tick 0) (fun _ => blink_tick (1 # 2))
            (blink_scene false)
          = (inr tt, blink_scene false,
             [WriteGatt (_led_command (blink_scene false)
                         ++ (if tick (blink_scene false) then off else on))]
             ++ (if Qltb 0 0 then [Sleep 0] else [])
             ++ [WriteGatt (_led_command (blink_scene false)
                            ++ (if tick (blink_scene false)
                                then on else off))]
             ++ (if Qltb 0 (1 # 2) then [Sleep (1 # 2)] else [])).
Proof.
  assert (H : is_Some (_connection (blink_scene false)))
    by (eexists; reflexivity).
  split; [exact H |].
  exact (blink_tick_twice 0 (1 # 2) (blink_scene false) H).
Defined.

Lemma led_operations_disconnected_witness :
  _connection __init__ = None
  /\ blink_tick (1 # 2) __init__
     = (inl AttributeError, set_tick true __init__, []).
Proof.
  split; [reflexivity |].
  exact (proj1 (proj2 (led_operations_disconnected __init__ eq_refl))
           (1 # 2)).
Defined.

Lemma wait_times_out_witness :
  float_add (snd (connected_board, 0%Q)) 1 = Some 1%Q
  /\ (1 <= snd (connected_board, 0%Q)
           + inject_Z (Z.of_nat 3) * (4 # 10))%Q
  /\ exists (n : nat) now' ts,
       (n <= 3)%nat
       /\ board_has_changed punctual 4 1 (4 # 10) (connected_board, 0%Q)
          = (Some (inr false),
             (set_tick (if Nat.even n then tick connected_board
                        else negb (tick connected_board))
                (set_board_changed false connected_board), now'),
             ts)
       /\ length ts = n
       /\ (1 <= now')%Q.
Proof.
  assert (H1 : (0 < 4 # 10)%Q) by reflexivity.
  assert (H2 : (4 # 10 <= 4 # 10)%Q) by (vm_compute; discriminate).
  assert (H3 : (4 # 10 <= 1)%Q) by (vm_compute; discriminate).
  assert (H4 : float_add (snd (connected_board, 0%Q)) 1 = Some 1%Q)
    by (vm_compute; reflexivity).
  assert (H5 : (1 <= snd (connected_board, 0%Q)
                     + inject_Z (Z.of_nat 3) * (4 # 10))%Q)
    by (vm_compute; discriminate).
  split; [exact H4 |]. split; [exact H5 |].
  exact (wait_times_out punctual 1 (4 # 10) (4 # 10) 1
           (connected_board, 0%Q) 3 connected_board_connected
           H1 H2 H3 (punctual_uneventful (4 # 10)) H4 H5 4%nat (le_n 4)).
Defined.

Lemma wait_forgets_earlier_change_witness :
  _board_changed (set_board_changed true connected_board) = true
  /\ exists w' ts,
       board_has_changed punctual 5 0 (4 # 10)
         (set_board_changed true connected_board, 0%Q)
       = (None, w', ts)
       /\ length ts = 5%nat.
Proof.
  split; [reflexivity |].
  assert (H0 : (0 <= 0)%Q) by (vm_compute; discriminate).
  exact (wait_forgets_earlier_change 0 (4 # 10)
           (set_board_changed true connected_board, 0%Q) 5
           connected_board_connected H0).
Defined.

Lemma filter_by_name_matches_witness :
  exists found : bool,
    _filter_by_name
      (mkBLEDevice (Some (Py.lit "Chessnut Air")) (Py.lit "00:11"))
      (mkDiscovery [Py.lit "Smart Chess"; Py.lit "Chessnut"] None)
    = (inr found,
       if found
       then mkDiscovery [Py.lit "Smart Chess"; Py.lit "Chessnut"]
              (Some (mkBLEDevice (Some (Py.lit "Chessnut Air"))
                       (Py.lit "00:11")))
       else mkDiscovery [Py.lit "Smart Chess"; Py.lit "Chessnut"] None)
    /\ (found = true
        <-> exists ext pre post,
              ext ∈ [Py.lit "Smart Chess"; Py.lit "Chessnut"]
              /\ Py.lit "Chessnut Air" = pre ++ ext ++ post).
Proof.
  exact (proj1 (filter_by_name_matches
                  (mkBLEDevice (Some (Py.lit "Chessnut Air"))
                     (Py.lit "00:11"))
                  (mkDiscovery [Py.lit "Smart Chess"; Py.lit "Chessnut"]
                     None))
           (Py.lit "Chessnut Air") eq_refl).
Defined.


Lemma fen_places_pieces_witness :
  length (elems (board_state tracking_start)) = 32%nat
  /\ exists rows,
       board_state_as_fen convertDict_air tracking_start
       = (inr (Py.join (Py.lit "/") rows),
          set_cur_fen (Py.join (Py.lit "/") rows) tracking_start)
       /\ length rows = 8%nat
       /\ Forall (fun row => Forall plain row
                             /\ length (expand row) = 8%nat) rows
       /\ forall file rank, 0 <= file < 8 -> 0 <= rank < 8 ->
            exists row p,
              rows !! Z.to_nat (7 - rank) = Some row
              /\ (chess.square file rank, p)
                 ∈ (board_state_as_square_and_piece convertDict_air
                      (board_state tracking_start)).1
              /\ expand row !! Z.to_nat file = Some (square_char p).
Proof.
  split; [reflexivity |].
  exact (fen_places_pieces convertDict_air tracking_start
           eq_refl start_buffer_mapped).
Defined.

Lemma compare_reports_differences_witness :
  length (elems (ByteArray h2_lifted)) = 32%nat
  /\ board_differences convertDict_air (board_state tracking_start)
       (ByteArray h2_lifted)
     = [(Some (chess.mkPiece chess.PAWN true), 15, None)]
  /\ exists fen,
       (board_state_as_fen convertDict_air
          (set_board_state (ByteArray h2_lifted) tracking_start)).1
       = inr fen
       /\ compare_board_state_to_fen convertDict_air fen tracking_start
          = inr (board_differences convertDict_air
                   (board_state tracking_start) (ByteArray h2_lifted))
       /\ compare_board_state_to_fen convertDict_air
            (fen ++ Py.lit " " ++ Py.lit "w KQkq - 0 1") tracking_start
          = inr (board_differences convertDict_air
                   (board_state tracking_start) (ByteArray h2_lifted)).
Proof.
  split; [reflexivity |]. split; [vm_compute; reflexivity |].
  exact (compare_reports_differences convertDict_air tracking_start
           (ByteArray h2_lifted) (Py.lit "w KQkq - 0 1")
           eq_refl start_buffer_mapped eq_refl h2_lifted_mapped).
Defined.

Lemma compare_rejects_short_target_witness :
  Forall (fun ch => Py.isspace ch = true) (Py.lit "  ")
  /\ compare_board_state_to_fen convertDict_air (Py.lit "  ") tracking_start
     = inl IndexError.
Proof.
  assert (H : Forall (fun ch => Py.isspace ch = true) (Py.lit "  "))
    by (repeat constructor).
  split; [exact H |].
  exact (proj1 (compare_rejects_short_target convertDict_air (Py.lit "  ")
                  tracking_start) H).
Defined.

Lemma loc_to_pos_names_decoder_squares_witness :
  0 <= 12 < 64
  /\ parse_square (loc_to_pos 12 false) = inr (63 - 12).
Proof.
  assert (H : 0 <= 12 < 64) by lia.
  split; [exact H |].
  exact (proj1 (loc_to_pos_names_decoder_squares convertDict_air) 12 H).
Defined.

Lemma handler_ignores_repeat_witness :
  payload_slice ([9; 9] ++ h2_lifted ++ [7]) = payload_slice h2_lifted_payload
  /\ _handler convertDict_air quiet quiet ([9; 9] ++ h2_lifted ++ [7])
       (_handler convertDict_air quiet quiet h2_lifted_payload
          tracking_start).1.2
     = (inr tt,
        (_handler convertDict_air quiet quiet h2_lifted_payload
           tracking_start).1.2, []).
Proof.
  split; [reflexivity |].
  exact (handler_ignores_repeat convertDict_air quiet quiet
           h2_lifted_payload ([9; 9] ++ h2_lifted ++ [7]) tracking_start
           quiet_keeps_buffers quiet_keeps_buffers eq_refl).
Defined.

Lemma first_notification_is_a_change_witness :
  _old_data connected_board = PyList (repeat 0 32)
  /\ _handler convertDict_air quiet quiet (repeat 0 34) connected_board
     = (inr tt, replaced (payload_slice (repeat 0 34)) connected_board, [])
  /\ _board_changed (replaced (payload_slice (repeat 0 34)) connected_board)
     = true
  /\ _old_data (replaced (payload_slice (repeat 0 34)) connected_board)
     <> _old_data connected_board.
Proof.
  split; [reflexivity |].
  exact (first_notification_is_a_change convertDict_air quiet quiet
           (repeat 0 34) connected_board (repeat 0 32)
           eq_refl eq_refl eq_refl).
Defined.


Lemma handler_without_callbacks_witness :
  payload_slice two_lifted_payload <> _old_data tracking_start
  /\ _handler convertDict_air not_overridden not_overridden
       two_lifted_payload tracking_start
     = (inl NotImplementedError,
        replaced (payload_slice two_lifted_payload) tracking_start,
        [mkCall Up 15 (chess.mkPiece chess.PAWN true)
           (replaced (payload_slice two_lifted_payload) tracking_start)]).
Proof.
  assert (H : payload_slice two_lifted_payload <> _old_data tracking_start)
    by (vm_compute; discriminate).
  split; [exact H |].
  exact (handler_without_callbacks convertDict_air two_lifted_payload
           tracking_start (mkEvent Up 15 7) [mkEvent Up 14 7]
           (chess.mkPiece chess.PAWN true) H eq_refl eq_refl).
Defined.

Lemma compare_empty_iff_same_pieces_witness :
  length (elems (ByteArray h2_lifted)) = 32%nat
  /\ exists fen,
       (board_state_as_fen convertDict_air
          (set_board_state (ByteArray h2_lifted) tracking_start)).1
       = inr fen
       /\ (compare_board_state_to_fen convertDict_air fen tracking_start
           = inr []
           <-> board_state_as_square_and_piece convertDict_air
                 (board_state tracking_start)
               = board_state_as_square_and_piece convertDict_air
                   (ByteArray h2_lifted)).
Proof.
  split; [reflexivity |].
  exact (compare_empty_iff_same_pieces convertDict_air tracking_start
           (ByteArray h2_lifted)
           eq_refl start_buffer_mapped eq_refl h2_lifted_mapped).
Defined.


(** ** Where the specification and the program part *)




